(** * The Firehose output plugin: batch accumulator, send and response handling

    A shallow embedding of [firehose/firehose.go] (package [firehose] of the
    Fluent Bit output plugin for Amazon Kinesis Data Firehose) and the proofs
    of its buffering properties.

    Conventions of the embedding.
    - Go's [int] and [int64] are modelled by [Z] without wrap-around: every
      [int] the code computes is the length of a slice, or a sum of lengths
      of distinct byte slices that are all held in memory, and such a number
      is below [2^63]; [FailedPutCount] is only compared, never computed with.
    - A [[]byte] is a [list byte]; a Go [string] is a [string].
    - A nil-able pointer to a scalar ([*string], [*int64]) is an [option].
    - A Go [error] is an [option error], nil being [None].
    - The record content ([map[interface{}]interface{}]), the strftime
      formatter, the JSON encoder, the helpers of package [plugins] and the
      Firehose client are collaborators whose code is outside
      [firehose.go]; they are gathered in the record [Externals] and every
      definition is parametric in it. *)

From Stdlib Require Import ZArith Lia.
From Stdlib Require Import Strings.Byte.
From stdpp Require Import base decidable option list strings.

Local Open Scope Z_scope.

(** ** Constants *)

(** firehose.go:37-43, the Firehose API limits. *)
Definition maximumRecordsPerPut : Z := 500.
Definition maximumPutRecordBatchSize : Z := 4194304.
Definition maximumRecordSize : Z := 1024000.
Definition truncatedSuffix : string := "[Truncated...]".

(** The return codes of [fluent-bit-go/output] (from [flb_output.h]). *)
Definition FLB_ERROR : Z := 0.
Definition FLB_OK : Z := 1.
Definition FLB_RETRY : Z := 2.

(** [firehose.ErrCodeServiceUnavailableException] of the AWS SDK. *)
Definition ErrCodeServiceUnavailableException : string :=
  "ServiceUnavailableException".

(** ** Go values *)

(** [len(s)] as a Go [int]. *)
Definition len {A : Type} (s : list A) : Z := Z.of_nat (length s).

(** [[]byte(s)] for a string [s]. *)
Definition bytes_of (s : string) : list byte := Stdlib.Strings.String.list_byte_of_string s.

(** Go errors: the ones built by [fmt.Errorf] and the SDK's [awserr.Error],
    which carries a code. *)
Inductive error : Type :=
  | errorString (msg : string)
  | awserrError (code : string) (msg : string).

Definition Time : Type := Z.

(** [aws.Int64Value] and [aws.StringValue]: the zero value for nil. *)
Definition Int64Value (p : option Z) : Z := default 0 p.
Definition StringValue (p : option string) : string := default "" p.

(** ** The types of the Firehose SDK used by the plugin *)

Record firehose_Record : Type := { Data : list byte }.

Record PutRecordBatchInput : Type := {
  DeliveryStreamName : option string;
  Records : list firehose_Record
}.

Record PutRecordBatchResponseEntry : Type := {
  ErrorCode : option string;
  ErrorMessage : option string;
  RecordId : option string
}.

Record PutRecordBatchOutput : Type := {
  Encrypted : option bool;
  FailedPutCount : option Z;
  RequestResponses : list PutRecordBatchResponseEntry
}.

(** ** The failure watchdog of package [plugins] *)

Module plugins.

(** Modelled from the spec: the type [plugins.Timeout] and its methods
    [Start], [Check] and [Reset] are not part of [firehose.go].  The
    watchdog keeps an optional "failing-since" instant and a threshold;
    [Start] sets failing-since to the current instant only when it is not
    set, [Reset] clears it, and [Check] fires the fatal callback when
    failing-since is set and the elapsed time exceeds the threshold.  The
    reading of the clock is an argument. *)
Record Timeout : Type := {
  failingSince : option Time;
  threshold : Z
}.

Definition Start (now : Time) (t : Timeout) : Timeout :=
  match failingSince t with
  | Some _ => t
  | None => {| failingSince := Some now; threshold := threshold t |}
  end.

Definition Reset (t : Timeout) : Timeout :=
  {| failingSince := None; threshold := threshold t |}.

(** [Check now t] is [true] when the callback is invoked. *)
Definition Check (now : Time) (t : Timeout) : bool :=
  match failingSince t with
  | Some since => bool_decide (threshold t < now - since)
  | None => false
  end.

End plugins.

(** ** Collaborators *)

(** What the plugin calls outside [firehose.go].  A function that returns
    [(value, error)] in Go returns a pair here, so that a caller that ignores
    the error still sees the value. *)
Record Externals : Type := {
  (** [map[interface{}]interface{}], as handed over by Fluent Bit *)
  RecordMap : Type;
  (** the [interface{}] that [plugins.LogKey] extracts *)
  LogValue : Type;
  (** [*strftime.Strftime] *)
  Strftime : Type;
  (** an implementation of the interface [PutRecordBatcher] *)
  Client : Type;
  (** [f.Format(buf, t)]: the text written to the buffer, and the error *)
  strftime_Format : Strftime -> Time -> string * option error;
  (** [record[key] = value] *)
  map_set : RecordMap -> string -> string -> RecordMap;
  plugins_DataKeys : string -> RecordMap -> RecordMap;
  plugins_DecodeMap : RecordMap -> RecordMap * option error;
  (** [replaceDots] (firehose.go:233-250) rewrites the keys of the map while
      ranging over it; Go leaves that iteration order open, so its result is
      taken as given.  No property below depends on it. *)
  replaceDots_map : RecordMap -> string -> RecordMap;
  plugins_LogKey : RecordMap -> string -> LogValue * option error;
  plugins_EncodeLogKey : LogValue -> list byte * option error;
  json_Marshal : RecordMap -> list byte * option error;
  (** [client.PutRecordBatch(input)]: the response or the transport error,
      and the client afterwards *)
  PutRecordBatch :
    Client -> PutRecordBatchInput -> (PutRecordBatchOutput + error) * Client
}.

(** The two readings of the clock an operation may take: one when the
    watchdog is polled before the request, one when it is armed after a
    failure. *)
Record Env : Type := { tCheck : Time; tStart : Time }.

Section Plugin.

Variable ext : Externals.

(** ** The plugin state (firehose.go:56-70) *)

Record OutputPlugin : Type := {
  region : string;
  deliveryStream : string;
  dataKeys : string;
  timeKey : string;
  fmtStrftime : option (Strftime ext);
  logKey : string;
  client : Client ext;
  records : list firehose_Record;
  dataLength : Z;
  timer : plugins.Timeout;
  PluginID : Z;
  replaceDots : string;
  simpleAggregation : bool
}.

(** Field updates. *)
Definition set_batch (o : OutputPlugin) (rs : list firehose_Record) (n : Z)
  : OutputPlugin :=
  {| region := region o; deliveryStream := deliveryStream o;
     dataKeys := dataKeys o; timeKey := timeKey o;
     fmtStrftime := fmtStrftime o; logKey := logKey o; client := client o;
     records := rs; dataLength := n;
     timer := timer o; PluginID := PluginID o;
     replaceDots := replaceDots o;
     simpleAggregation := simpleAggregation o |}.

Definition set_timer (o : OutputPlugin) (t : plugins.Timeout)
  : OutputPlugin :=
  {| region := region o; deliveryStream := deliveryStream o;
     dataKeys := dataKeys o; timeKey := timeKey o;
     fmtStrftime := fmtStrftime o; logKey := logKey o; client := client o;
     records := records o; dataLength := dataLength o;
     timer := t; PluginID := PluginID o;
     replaceDots := replaceDots o;
     simpleAggregation := simpleAggregation o |}.

Definition set_client (o : OutputPlugin) (c : Client ext) : OutputPlugin :=
  {| region := region o; deliveryStream := deliveryStream o;
     dataKeys := dataKeys o; timeKey := timeKey o;
     fmtStrftime := fmtStrftime o; logKey := logKey o; client := c;
     records := records o; dataLength := dataLength o;
     timer := timer o; PluginID := PluginID o;
     replaceDots := replaceDots o;
     simpleAggregation := simpleAggregation o |}.

(** [NewOutputPlugin] (firehose.go:73-117) once the client, the watchdog
    and the formatter have been built: the batch starts empty and
    [dataLength] has Go's zero value. *)
Definition NewOutputPlugin
    (region deliveryStream dataKeys timeKey logKey replaceDots : string)
    (pluginID : Z) (simpleAggregation : bool)
    (client : Client ext) (timer : plugins.Timeout)
    (timeFormatter : option (Strftime ext)) : OutputPlugin :=
  {| region := region; deliveryStream := deliveryStream;
     dataKeys := dataKeys; timeKey := timeKey;
     fmtStrftime := timeFormatter; logKey := logKey; client := client;
     records := []; dataLength := 0;
     timer := timer; PluginID := pluginID;
     replaceDots := replaceDots;
     simpleAggregation := simpleAggregation |}.

(** How a call ends: it returns, the watchdog's callback ends the process
    with [os.Exit(1)] (firehose.go:81-85), or the Go runtime panics. *)
Inductive Outcome (A : Type) : Type :=
  | Returned (a : A) (o : OutputPlugin)
  | Exited (code : Z)
  | Panicked.
Arguments Returned {A} a o.
Arguments Exited {A} code.
Arguments Panicked {A}.

(** ** processRecord (firehose.go:252-297) *)

(** Lines 253-285: the payload before the newline.  In the log-key branch
    [log, err := plugins.LogKey(...)] declares a new [err] in the inner
    block, and the error of [plugins.EncodeLogKey] is assigned to that
    inner variable: the test of line 282 reads the outer [err], which is
    nil there. *)
Definition encodeRecord (o : OutputPlugin) (record : RecordMap ext)
  : list byte * option error :=
  let record :=
    if decide (dataKeys o = "") then record
    else plugins_DataKeys ext (dataKeys o) record in
  match plugins_DecodeMap ext record with
  | (_, Some err) => ([], Some err)
  | (record, None) =>
      let record :=
        if decide (replaceDots o = "") then record
        else replaceDots_map ext record (replaceDots o) in
      if decide (logKey o = "") then
        match json_Marshal ext record with
        | (_, Some err) => ([], Some err)
        | (data, None) => (data, None)
        end
      else
        match plugins_LogKey ext record (logKey o) with
        | (_, Some err) => ([], Some err)
        | (log, None) => (fst (plugins_EncodeLogKey ext log), None)
        end
  end.

(** Lines 287-294: the newline and the truncation. *)
Definition terminate (data : list byte) : list byte :=
  let data := data ++ [Byte.x0a] in
  if bool_decide (maximumRecordSize < len data) then
    take (Z.to_nat (maximumRecordSize - Z.of_nat (Stdlib.Strings.String.length truncatedSuffix))) data
      ++ bytes_of truncatedSuffix
  else data.

Definition processRecord (o : OutputPlugin) (record : RecordMap ext)
  : list byte * option error :=
  match encodeRecord o record with
  | (_, Some err) => ([], Some err)
  | (data, None) => (terminate data, None)
  end.

(** ** processAPIResponse (firehose.go:328-365) *)

(** The loop of lines 339-348 over [response.RequestResponses]: [i] is the
    index of the entry at the head of [entries], [failedRecords] what has
    been collected so far.  An entry with an error message takes
    [output.records[i]], which panics when [i] is out of range; an entry
    whose code is the service-unavailable one ends the whole function. *)
Inductive Walk : Type :=
  | Walk_done (failedRecords : list firehose_Record)
  | Walk_unavailable
  | Walk_panic.

Fixpoint collectFailed (rs : list firehose_Record) (i : nat)
    (entries : list PutRecordBatchResponseEntry)
    (failedRecords : list firehose_Record) : Walk :=
  match entries with
  | [] => Walk_done failedRecords
  | record :: rest =>
      let appended :=
        match ErrorMessage record with
        | Some _ =>
            match rs !! i with
            | Some r => Some (failedRecords ++ [r])
            | None => None
            end
        | None => Some failedRecords
        end in
      match appended with
      | None => Walk_panic
      | Some failedRecords =>
          if decide (StringValue (ErrorCode record)
                     = ErrCodeServiceUnavailableException)
          then Walk_unavailable
          else collectFailed rs (S i) rest failedRecords
      end
  end.

(** The loop of lines 353-355. *)
Definition sumDataLength (rs : list firehose_Record) (start : Z) : Z :=
  fold_left (fun n record => n + len (Data record)) rs start.

Definition processAPIResponse (env : Env) (o : OutputPlugin)
    (response : PutRecordBatchOutput) : Outcome (Z * option error) :=
  if bool_decide (0 < Int64Value (FailedPutCount response)) then
    if bool_decide (Int64Value (FailedPutCount response) = len (records o))
    then
      Returned
        (FLB_RETRY,
         Some (errorString
           "PutRecordBatch request returned with no records successfully recieved"))
        (set_timer o (plugins.Start (tStart env) (timer o)))
    else
      match collectFailed (records o) 0 (RequestResponses response) [] with
      | Walk_panic => Panicked
      | Walk_unavailable => Returned (FLB_RETRY, None) o
      | Walk_done failedRecords =>
          let rs := take 0 (records o) ++ failedRecords in
          Returned (FLB_OK, None) (set_batch o rs (sumDataLength rs 0))
      end
  else
    Returned (FLB_OK, None)
      (set_batch (set_timer o (plugins.Reset (timer o)))
         (take 0 (records o)) 0).

(** ** sendCurrentBatch (firehose.go:299-324) *)

Definition sendCurrentBatch (env : Env) (o : OutputPlugin)
  : Outcome (Z * option error) :=
  if bool_decide (len (records o) = 0) then Returned (FLB_OK, None) o
  else if plugins.Check (tCheck env) (timer o) then Exited 1
  else
    let (reply, c) :=
      PutRecordBatch ext (client o)
        {| DeliveryStreamName := Some (deliveryStream o);
           Records := records o |} in
    let o := set_client o c in
    match reply with
    | inr err =>
        Returned (FLB_RETRY, Some err)
          (set_timer o (plugins.Start (tStart env) (timer o)))
    | inl response => processAPIResponse env o response
    end.

(** ** AddRecord and Flush (firehose.go:183-231) *)

(** Lines 184-192: the time key.  [output.fmtStrftime] is nil unless a time
    key is configured; calling [Format] through nil panics. *)
Inductive Stamped : Type :=
  | Stamp_ok (record : RecordMap ext)
  | Stamp_error (err : error)
  | Stamp_panic.

Definition stampRecord (o : OutputPlugin) (record : RecordMap ext)
    (timeStamp : Time) : Stamped :=
  if decide (timeKey o = "") then Stamp_ok record
  else
    match fmtStrftime o with
    | None => Stamp_panic
    | Some f =>
        match strftime_Format ext f timeStamp with
        | (_, Some err) => Stamp_error err
        | (buf, None) => Stamp_ok (map_set ext record (timeKey o) buf)
        end
    end.

(** The test of line 202. *)
Definition batchFull (o : OutputPlugin) (newDataSize : Z) : bool :=
  bool_decide (len (records o) = maximumRecordsPerPut)
  || bool_decide (maximumPutRecordBatchSize < dataLength o + newDataSize).

(** Lines 212-219.  [records[len(records)-1]] is read only after
    [len(records) > 0] has been tested, so the lookup does not fail. *)
Definition appendData (o : OutputPlugin) (data : list byte) : OutputPlugin :=
  let newDataSize := len data in
  let fresh := records o ++ [ {| Data := data |} ] in
  let i := (length (records o) - 1)%nat in
  let rs :=
    if simpleAggregation o && bool_decide (0 < len (records o)) then
      match records o !! i with
      | Some lastRecord =>
          if bool_decide (len (Data lastRecord) + newDataSize
                          <= maximumRecordSize)
          then <[ i := {| Data := Data lastRecord ++ data |} ]> (records o)
          else fresh
      | None => fresh
      end
    else fresh in
  set_batch o rs (dataLength o + newDataSize).

(** Lines 202-203: the send that makes room, when the test holds. *)
Definition flushIfFull (env : Env) (o : OutputPlugin) (newDataSize : Z)
  : Outcome (Z * option error) :=
  if batchFull o newDataSize then sendCurrentBatch env o
  else Returned (FLB_OK, None) o.

Definition AddRecord (env : Env) (o : OutputPlugin)
    (record : RecordMap ext) (timeStamp : Time) : Outcome Z :=
  match stampRecord o record timeStamp with
  | Stamp_panic => Panicked
  | Stamp_error _ => Returned FLB_ERROR o
  | Stamp_ok record =>
      match processRecord o record with
      | (_, Some _) => Returned FLB_OK o
      | (data, None) =>
          let newDataSize := len data in
          match flushIfFull env o newDataSize with
          | Returned (retCode, _) o =>
              if bool_decide (retCode <> FLB_OK) then Returned retCode o
              else Returned FLB_OK (appendData o data)
          | Exited code => Exited code
          | Panicked => Panicked
          end
      end
  end.

Definition Flush (env : Env) (o : OutputPlugin) : Outcome Z :=
  match sendCurrentBatch env o with
  | Returned (retCode, _) o => Returned retCode o
  | Exited code => Exited code
  | Panicked => Panicked
  end.

(** ** Sequences of calls *)

(** The calls the host makes on a plugin, each with the clock readings of
    its environment. *)
Inductive Call : Type :=
  | Call_AddRecord (record : RecordMap ext) (timeStamp : Time)
  | Call_Flush.

Definition call (env : Env) (o : OutputPlugin) (c : Call) : Outcome Z :=
  match c with
  | Call_AddRecord record timeStamp => AddRecord env o record timeStamp
  | Call_Flush => Flush env o
  end.

(** Runs the calls in turn; the statuses they returned come first to last. *)
Fixpoint run (o : OutputPlugin) (calls : list (Env * Call))
  : Outcome (list Z) :=
  match calls with
  | [] => Returned [] o
  | (env, c) :: rest =>
      match call env o c with
      | Returned retCode o =>
          match run o rest with
          | Returned retCodes o => Returned (retCode :: retCodes) o
          | Exited code => Exited code
          | Panicked => Panicked
          end
      | Exited code => Exited code
      | Panicked => Panicked
      end
  end.

(** One completed operation: [AddRecord], [Flush], or the send itself. *)
Inductive step : OutputPlugin -> OutputPlugin -> Prop :=
  | step_AddRecord env o record timeStamp retCode o' :
      AddRecord env o record timeStamp = Returned retCode o' -> step o o'
  | step_Flush env o retCode o' :
      Flush env o = Returned retCode o' -> step o o'
  | step_Send env o ret o' :
      sendCurrentBatch env o = Returned ret o' -> step o o'.

(** The states a plugin goes through after [NewOutputPlugin]. *)
Inductive reachable : OutputPlugin -> Prop :=
  | reachable_new region deliveryStream dataKeys timeKey logKey replaceDots
        pluginID simpleAggregation client timer timeFormatter :
      reachable
        (NewOutputPlugin region deliveryStream dataKeys timeKey logKey
           replaceDots pluginID simpleAggregation client timer timeFormatter)
  | reachable_step o o' : reachable o -> step o o' -> reachable o'.

(** ** The words of the specification *)

(** The sum of the byte lengths of the records held. *)
Fixpoint totalSize (rs : list firehose_Record) : Z :=
  match rs with
  | [] => 0
  | r :: rs => len (Data r) + totalSize rs
  end.

(** The tracked size agrees with the records held. *)
Definition consistent (o : OutputPlugin) : Prop :=
  dataLength o = totalSize (records o).

(** An outcome "carries an error" when it has an error message, and signals
    an overloaded destination when its code is the service-unavailable one. *)
Definition carriesError (e : PutRecordBatchResponseEntry) : Prop :=
  is_Some (ErrorMessage e).

Definition unavailable (e : PutRecordBatchResponseEntry) : Prop :=
  StringValue (ErrorCode e) = ErrCodeServiceUnavailableException.

(** The records whose outcome carried an error: records and outcomes are
    paired position by position, and the pairs with an error are kept. *)
Definition failedSubset (rs : list firehose_Record)
    (entries : list PutRecordBatchResponseEntry) : list firehose_Record :=
  fst <$> filter (fun p => carriesError (snd p)) (zip rs entries).

End Plugin.

Arguments region {ext} o.
Arguments deliveryStream {ext} o.
Arguments dataKeys {ext} o.
Arguments timeKey {ext} o.
Arguments fmtStrftime {ext} o.
Arguments logKey {ext} o.
Arguments client {ext} o.
Arguments records {ext} o.
Arguments dataLength {ext} o.
Arguments timer {ext} o.
Arguments PluginID {ext} o.
Arguments replaceDots {ext} o.
Arguments simpleAggregation {ext} o.
Arguments Returned {ext A} a o.
Arguments Exited {ext A} code.
Arguments Panicked {ext A}.

(** ** A test double for the collaborators *)

(** A client that answers from a script and keeps the requests it was
    handed, oldest first. *)
Record MockClient : Type := {
  script : list (PutRecordBatchOutput + error);
  received : list PutRecordBatchInput
}.

Definition mock_PutRecordBatch (c : MockClient) (input : PutRecordBatchInput)
  : (PutRecordBatchOutput + error) * MockClient :=
  match script c with
  | reply :: rest =>
      (reply, {| script := rest; received := received c ++ [input] |})
  | [] =>
      (inr (errorString "no reply scripted"),
       {| script := []; received := received c ++ [input] |})
  end.

(** A record of the double is the text its encoding yields, [None] being a
    record that cannot be encoded; a formatter of the double is the flag
    telling whether formatting succeeds. *)
Definition mockExt : Externals :=
  {| RecordMap := option (list byte);
     LogValue := list byte;
     Strftime := bool;
     Client := MockClient;
     strftime_Format := fun f _ =>
       if f then ("2019-01-01T00:00:00", None)
       else ("", Some (errorString "cannot format"));
     map_set := fun record _ _ => record;
     plugins_DataKeys := fun _ record => record;
     plugins_DecodeMap := fun record => (record, None);
     replaceDots_map := fun record _ => record;
     plugins_LogKey := fun record _ => (default [] record, None);
     plugins_EncodeLogKey := fun log => (log, None);
     json_Marshal := fun record =>
       match record with
       | None => ([], Some (errorString "cannot marshal"))
       | Some text => (text, None)
       end;
     PutRecordBatch := mock_PutRecordBatch |}.

Definition mockClient (replies : list (PutRecordBatchOutput + error))
  : MockClient :=
  {| script := replies; received := [] |}.

Definition idleTimer : plugins.Timeout :=
  {| plugins.failingSince := None; plugins.threshold := 600 |}.

(** A plugin of the double: only the delivery stream, the region, the time
    key and the aggregation switch are configured. *)
Definition mockPlugin (timeKey : string) (simpleAggregation : bool)
    (replies : list (PutRecordBatchOutput + error)) : OutputPlugin mockExt :=
  NewOutputPlugin mockExt "us-west-2" "stream" "" timeKey "" "" 0
    simpleAggregation (mockClient replies) idleTimer
    (if decide (timeKey = "") then None else Some false).

Definition mockEnv : Env := {| tCheck := 10; tStart := 11 |}.

(** Outcomes of the service: accepted, and rejected with a code. *)
Definition accepted : PutRecordBatchResponseEntry :=
  {| ErrorCode := None; ErrorMessage := None; RecordId := Some "id" |}.

Definition rejected (code : string) : PutRecordBatchResponseEntry :=
  {| ErrorCode := Some code; ErrorMessage := Some "rejected";
     RecordId := None |}.

Definition response (failed : Z) (entries : list PutRecordBatchResponseEntry)
  : PutRecordBatchOutput :=
  {| Encrypted := None; FailedPutCount := Some failed;
     RequestResponses := entries |}.

(** Five short records, as held after five calls of [AddRecord]. *)
Definition rec (s : string) : firehose_Record := {| Data := bytes_of s |}.

Definition fiveRecords : list firehose_Record :=
  [rec "a"; rec "bb"; rec "ccc"; rec "dddd"; rec "eeeee"].

Definition fiveHeld : OutputPlugin mockExt :=
  set_batch mockExt (mockPlugin "" false []) fiveRecords 15.

(** Responses to a request of five records: two rejected (those at 1 and
    3), two rejected of which one for an overloaded stream, all rejected,
    all accepted. *)
Definition twoOfFive : PutRecordBatchOutput :=
  response 2
    [accepted; rejected "InternalFailure"; accepted;
     rejected "InternalFailure"; accepted].

Definition twoOfFiveOverloaded : PutRecordBatchOutput :=
  response 2
    [accepted; rejected "ServiceUnavailableException"; accepted;
     rejected "InternalFailure"; accepted].

Definition fiveOfFive : PutRecordBatchOutput :=
  response 5 (replicate 5 (rejected "InternalFailure")).

Definition noneOfFive : PutRecordBatchOutput :=
  response 0 (replicate 5 accepted).

(** [payload n] is a text of [n] bytes. *)
Definition payload (n : Z) : list byte := replicate (Z.to_nat n) Byte.x61.

(** A plugin with aggregation on that holds one record of 100 bytes. *)
Definition oneHeld : OutputPlugin mockExt :=
  set_batch mockExt (mockPlugin "" true [])
    [ {| Data := payload 99 ++ [Byte.x0a] |} ] 100.

(** A plugin that holds 500 records of two bytes, with a client whose next
    request fails in transport. *)
Definition fullPlugin : OutputPlugin mockExt :=
  set_batch mockExt
    (mockPlugin "" false
       [inr (awserrError "ServiceUnavailableException" "slow down")])
    (replicate 500 (rec "{}")) 1000.

(** The same plugin after the failed request. *)
Definition fullPluginFailed : OutputPlugin mockExt :=
  set_timer mockExt
    (set_client mockExt fullPlugin
       {| script := [];
          received := [ {| DeliveryStreamName := Some "stream";
                           Records := replicate 500 (rec "{}") |} ] |})
    {| plugins.failingSince := Some 11; plugins.threshold := 600 |}.

(** ** A batch over the 4 MiB limit *)

(** The service rejects the first four records of the first request and
    accepts the fifth; it accepts the second request whole. *)
Definition overflowReplies : list (PutRecordBatchOutput + error) :=
  [ inl (response 4
      [rejected "InternalFailure"; rejected "InternalFailure";
       rejected "InternalFailure"; rejected "InternalFailure"; accepted]);
    inl (response 0 []) ].

Definition overflowPlugin : OutputPlugin mockExt :=
  mockPlugin "" false overflowReplies.

(** Four records whose encoding has 1,024,000 bytes with the newline, one of
    10 bytes, one of 1,000,000 bytes, and a flush. *)
Definition overflowCallsOf (big small next : list byte)
  : list (Env * Call mockExt) :=
  [ (mockEnv, Call_AddRecord mockExt (Some big) 0);
    (mockEnv, Call_AddRecord mockExt (Some big) 0);
    (mockEnv, Call_AddRecord mockExt (Some big) 0);
    (mockEnv, Call_AddRecord mockExt (Some big) 0);
    (mockEnv, Call_AddRecord mockExt (Some small) 0);
    (mockEnv, Call_AddRecord mockExt (Some next) 0);
    (mockEnv, Call_Flush mockExt) ].

Definition overflowCalls : list (Env * Call mockExt) :=
  overflowCallsOf (payload 1023999) (payload 9) (payload 999999).

(** The batch the second request carries. *)
Definition overflowBatchOf (big next : list byte) : list firehose_Record :=
  [ {| Data := big ++ [Byte.x0a] |}; {| Data := big ++ [Byte.x0a] |};
    {| Data := big ++ [Byte.x0a] |}; {| Data := big ++ [Byte.x0a] |};
    {| Data := next ++ [Byte.x0a] |} ].

(** The plugin of the scenario when its client is [c], its batch [rs] and
    its tracked size [n]. *)
Definition overflowState (c : MockClient) (rs : list firehose_Record) (n : Z)
  : OutputPlugin mockExt :=
  set_batch mockExt (set_client mockExt overflowPlugin c) rs n.

(** ** Configuration, client contracts and the construction *)

Section Contracts.

Variable ext : Externals.

(** The fields an operation has no reason to touch. *)
Definition sameConfig (o o' : OutputPlugin ext) : Prop :=
  region o' = region o
  /\ deliveryStream o' = deliveryStream o
  /\ dataKeys o' = dataKeys o
  /\ timeKey o' = timeKey o
  /\ fmtStrftime o' = fmtStrftime o
  /\ logKey o' = logKey o
  /\ PluginID o' = PluginID o
  /\ replaceDots o' = replaceDots o
  /\ simpleAggregation o' = simpleAggregation o.

(** A client whose responses have one outcome per record sent and count as
    failed the outcomes that carry an error message. *)
Definition wellFormedReplies : Prop :=
  forall c input response c',
    PutRecordBatch ext c input = (inl response, c') ->
    length (RequestResponses response) = length (Records input)
    /\ Int64Value (FailedPutCount response)
       = len (filter carriesError (RequestResponses response)).

(** A client whose responses report no failure or the failure of the whole
    request, never of a part. *)
Definition neverPartial : Prop :=
  forall c input response c',
    PutRecordBatch ext c input = (inl response, c') ->
    Int64Value (FailedPutCount response) <= 0
    \/ Int64Value (FailedPutCount response) = len (Records input).

(** The bytes held, read record after record. *)
Definition heldBytes (rs : list firehose_Record) : list byte :=
  concat (Data <$> rs).

(** The bounds of a record held: at least the newline, at most the limit. *)
Definition recordFits (r : firehose_Record) : Prop :=
  1 <= len (Data r) <= maximumRecordSize.

(** A call whose record is dropped by [AddRecord] because it cannot be
    encoded (firehose.go:193-198). *)
Definition dropped (o : OutputPlugin ext) (c : Env * Call ext) : bool :=
  match snd c with
  | Call_AddRecord _ record timeStamp =>
      match stampRecord ext o record timeStamp with
      | Stamp_ok _ record =>
          match processRecord ext o record with
          | (_, Some _) => true
          | (_, None) => false
          end
      | _ => false
      end
  | Call_Flush _ => false
  end.

(** firehose.go:45-48. *)
Definition defaultTimeFmt : string := "%Y-%m-%dT%H:%M:%S".

(** [NewOutputPlugin] (firehose.go:73-117) with its failures.  The outcome
    of [newPutRecordBatcher] and that of [plugins.NewTimeout] are given;
    [strftime_New] stands for [strftime.New] with the two options of
    line 96. *)
Definition NewOutputPlugin_call
    (strftime_New : string -> Strftime ext + error)
    (newClient : Client ext + error) (newTimeout : plugins.Timeout + error)
    (region deliveryStream dataKeys timeKey timeFmt logKey replaceDots
       : string)
    (pluginID : Z) (simpleAggregation : bool) : OutputPlugin ext + error :=
  match newClient with
  | inr err => inr err
  | inl client =>
      match newTimeout with
      | inr err => inr err
      | inl timer =>
          let build timeFormatter :=
            inl (NewOutputPlugin ext region deliveryStream dataKeys timeKey
                   logKey replaceDots pluginID simpleAggregation client timer
                   timeFormatter) in
          if decide (timeKey = "") then build None
          else
            let timeFmt :=
              if decide (timeFmt = "") then defaultTimeFmt else timeFmt in
            match strftime_New timeFmt with
            | inr err => inr err
            | inl timeFormatter => build (Some timeFormatter)
            end
      end
  end.

End Contracts.

(** ** The host entry points (package [main]) *)

Section Host.

(** The plugin object of that file is the earlier one, whose [AddRecord] and
    [Flush] return an error; its type and methods are given.  The decoder
    is the sequence of results [output.GetRecord] yields: a return code,
    0 for a record, and the record. *)
Variable FirehoseOutput : Type.
Variable Record_ : Type.
Variable out_AddRecord :
  FirehoseOutput -> Record_ -> FirehoseOutput * option error.
Variable out_Flush : FirehoseOutput -> FirehoseOutput * option error.

(** The loop and the flush of [FLBPluginFlush]: the status returned, the
    plugin afterwards, and the count printed on success.  A decoder that is
    exhausted yields a nonzero code. *)
Fixpoint FLBPluginFlush_from (dec : list (Z * Record_)) (out : FirehoseOutput)
    (count : Z) : Z * FirehoseOutput * option Z :=
  match dec with
  | (0, record) :: rest =>
      match out_AddRecord out record with
      | (out, Some _) => (FLB_ERROR, out, None)
      | (out, None) => FLBPluginFlush_from rest out (count + 1)
      end
  | _ =>
      match out_Flush out with
      | (out, Some _) => (FLB_ERROR, out, None)
      | (out, None) => (FLB_OK, out, Some count)
      end
  end.

Definition FLBPluginFlush (dec : list (Z * Record_)) (out : FirehoseOutput)
  : Z * FirehoseOutput * option Z :=
  FLBPluginFlush_from dec out 0.

(** The records the loop reaches: those before the first nonzero code. *)
Fixpoint decoded (dec : list (Z * Record_)) : list Record_ :=
  match dec with
  | (0, record) :: rest => record :: decoded rest
  | _ => []
  end.

(** Adding the records in turn, up to the first error. *)
Fixpoint addAll (out : FirehoseOutput) (rs : list Record_)
  : FirehoseOutput * option error :=
  match rs with
  | [] => (out, None)
  | record :: rest =>
      match out_AddRecord out record with
      | (out, Some err) => (out, Some err)
      | (out, None) => addAll out rest
      end
  end.

(** What the loop and the flush come to when the count starts at
    [count]: the records are added up to the first error, then flushed. *)
Definition flushResult (dec : list (Z * Record_)) (out : FirehoseOutput)
    (count : Z) : Z * FirehoseOutput * option Z :=
  match addAll out (decoded dec) with
  | (out, Some _) => (FLB_ERROR, out, None)
  | (out, None) =>
      match out_Flush out with
      | (out, Some _) => (FLB_ERROR, out, None)
      | (out, None) => (FLB_OK, out, Some (count + len (decoded dec)))
      end
  end.

(** [FLBPluginInit]: the configuration keys are read through
    [output.FLBPluginConfigKey], here [configKey]; [newOutput] stands for
    [firehose.NewFirehoseOutput].  The result is the status and the value of
    the global [out]. *)
Definition FLBPluginInit (configKey : string -> string)
    (newOutput : string -> string -> string -> string
                 -> option FirehoseOutput * option error)
    (out : option FirehoseOutput) : Z * option FirehoseOutput :=
  let deliveryStream := configKey "delivery-stream" in
  let region := configKey "region" in
  let dataKeys := configKey "data_keys" in
  let roleARN := configKey "role_arn" in
  if bool_decide (deliveryStream = "") || bool_decide (region = "")
  then (FLB_ERROR, out)
  else
    match newOutput region deliveryStream dataKeys roleARN with
    | (out, Some _) => (FLB_ERROR, out)
    | (out, None) => (FLB_OK, out)
    end.

End Host.

Arguments FLBPluginFlush_from {FirehoseOutput Record_} _ _ _ _ _.
Arguments FLBPluginFlush {FirehoseOutput Record_} _ _ _ _.
Arguments decoded {Record_} _.
Arguments addAll {FirehoseOutput Record_} _ _ _.
Arguments flushResult {FirehoseOutput Record_} _ _ _ _ _.
Arguments FLBPluginInit {FirehoseOutput} _ _ _.

(** ** newPutRecordBatcher (firehose.go:119-178) *)

(** [endpoints.FirehoseServiceID] and [endpoints.StsServiceID]. *)
Definition FirehoseServiceID : string := "firehose".
Definition StsServiceID : string := "sts".

Section Sessions.

(** The SDK's sessions, credentials and resolved endpoints are given, with
    the functions on them the code calls: [endpoints.ResolvedEndpoint{URL:
    url}], the default resolver's [EndpointFor] (its options are those the
    custom resolver is handed), [session.NewSession] and
    [stscreds.NewCredentials]. *)
Variables Session Credentials_ ResolvedEndpoint Options : Type.
Variable resolvedURL : string -> ResolvedEndpoint.
Variable defaultEndpointFor :
  string -> string -> Options -> ResolvedEndpoint + error.

Definition Resolver : Type :=
  string -> string -> Options -> ResolvedEndpoint + error.

(** The fields of [aws.Config] the code sets; nil is [None]. *)
Record aws_Config : Type := {
  Config_Region : option string;
  Config_EndpointResolver : option Resolver;
  Config_CredentialsChainVerboseErrors : option bool;
  Config_Credentials : option Credentials_
}.

Variable session_NewSession : aws_Config -> Session + error.
Variable stscreds_NewCredentials : Session -> string -> Credentials_.

(** Lines 120-131. *)
Definition customResolverFn (firehoseEndpoint stsEndpoint : string)
  : Resolver :=
  fun service region optFns =>
    if bool_decide (service = FirehoseServiceID)
       && bool_decide (firehoseEndpoint <> "")
    then inl (resolvedURL firehoseEndpoint)
    else if bool_decide (service = StsServiceID)
            && bool_decide (stsEndpoint <> "")
    then inl (resolvedURL stsEndpoint)
    else defaultEndpointFor service region optFns.

(** [&aws.Config{}] with the credentials and the region set
    (lines 150-153 and 163-166). *)
Definition roleConfig (creds : Credentials_) (region : string) : aws_Config :=
  {| Config_Region := Some region;
     Config_EndpointResolver := None;
     Config_CredentialsChainVerboseErrors := None;
     Config_Credentials := Some creds |}.

(** Lines 133-173: the session and the configuration that line 175 hands to
    [firehose.New], or the error of a session.  [eksRole] is the value of
    the environment variable EKS_POD_EXECUTION_ROLE. *)
Definition serviceSession
    (roleARN region firehoseEndpoint stsEndpoint eksRole : string)
  : Session * aws_Config + error :=
  let baseConfig :=
    {| Config_Region := Some region;
       Config_EndpointResolver :=
         Some (customResolverFn firehoseEndpoint stsEndpoint);
       Config_CredentialsChainVerboseErrors := Some true;
       Config_Credentials := None |} in
  match session_NewSession baseConfig with
  | inr err => inr err
  | inl sess =>
      let afterEks :=
        if decide (eksRole = "") then inl (sess, baseConfig)
        else
          let eksConfig :=
            roleConfig (stscreds_NewCredentials sess eksRole) region in
          match session_NewSession eksConfig with
          | inr err => inr err
          | inl svcSess => inl (svcSess, eksConfig)
          end in
      match afterEks with
      | inr err => inr err
      | inl (svcSess, svcConfig) =>
          if decide (roleARN = "") then inl (svcSess, svcConfig)
          else
            let stsConfig :=
              roleConfig (stscreds_NewCredentials svcSess roleARN) region in
            match session_NewSession stsConfig with
            | inr err => inr err
            | inl svcSess => inl (svcSess, stsConfig)
            end
      end
  end.

End Sessions.

Arguments Config_Region {Credentials_ ResolvedEndpoint Options} _.
Arguments Config_EndpointResolver {Credentials_ ResolvedEndpoint Options} _.
Arguments Config_Credentials {Credentials_ ResolvedEndpoint Options} _.

(** ** Doubles for the host and the sessions *)

(** A plugin object that is the list of the records added; it refuses the
    record "bad". *)
Definition listAddRecord (out : list string) (record : string)
  : list string * option error :=
  if decide (record = "bad") then (out, Some (errorString "bad record"))
  else (out ++ [record], None).

Definition listFlush (out : list string) : list string * option error :=
  ([], None).

(** A session of the double is the configuration it was made from, and
    credentials are the role they were asked for. *)
Definition cfgSession : Type := aws_Config string string unit.

Definition mockNewSession (cfg : cfgSession) : cfgSession + error := inl cfg.

Definition mockServiceSession
    (roleARN region firehoseEndpoint stsEndpoint eksRole : string)
  : cfgSession * cfgSession + error :=
  serviceSession cfgSession string string unit (fun url => url)
    (fun service region _ => inl (service +:+ "." +:+ region))
    mockNewSession (fun _ role => role)
    roleARN region firehoseEndpoint stsEndpoint eksRole.

(** A double whose [plugins.EncodeLogKey] always reports an error. *)
Definition brokenLogExt : Externals :=
  {| RecordMap := option (list byte);
     LogValue := list byte;
     Strftime := bool;
     Client := MockClient;
     strftime_Format := strftime_Format mockExt;
     map_set := map_set mockExt;
     plugins_DataKeys := plugins_DataKeys mockExt;
     plugins_DecodeMap := plugins_DecodeMap mockExt;
     replaceDots_map := replaceDots_map mockExt;
     plugins_LogKey := plugins_LogKey mockExt;
     plugins_EncodeLogKey := fun log =>
       ([], Some (errorString "cannot encode"));
     json_Marshal := json_Marshal mockExt;
     PutRecordBatch := mock_PutRecordBatch |}.

Definition brokenLogPlugin : OutputPlugin brokenLogExt :=
  NewOutputPlugin brokenLogExt "us-west-2" "stream" "" "" "log" "" 0 false
    (mockClient []) idleTimer None.

(** Plugins of the first double: one that holds the five records with a
    client about to reject two of them, one that holds a record while the
    watchdog is running. *)
Definition fiveHeldPartial : OutputPlugin mockExt :=
  set_batch mockExt (mockPlugin "" false [inl twoOfFive]) fiveRecords 15.

Definition failingPlugin : OutputPlugin mockExt :=
  set_timer mockExt
    (set_batch mockExt (mockPlugin "" false []) [rec "{}"] 2)
    {| plugins.failingSince := Some 5; plugins.threshold := 600 |}.

(** ** A client that answers by the request *)

(** It rejects the first record of a request of two or more and accepts
    the others. *)
Definition pickyReply (input : PutRecordBatchInput) : PutRecordBatchOutput :=
  match Records input with
  | _ :: (_ :: _) as rest =>
      response 1
        (rejected "InternalFailure" :: replicate (length rest) accepted)
  | rs => response 0 (replicate (length rs) accepted)
  end.

Definition pickyExt : Externals :=
  {| RecordMap := option (list byte);
     LogValue := list byte;
     Strftime := bool;
     Client := unit;
     strftime_Format := strftime_Format mockExt;
     map_set := map_set mockExt;
     plugins_DataKeys := plugins_DataKeys mockExt;
     plugins_DecodeMap := plugins_DecodeMap mockExt;
     replaceDots_map := replaceDots_map mockExt;
     plugins_LogKey := plugins_LogKey mockExt;
     plugins_EncodeLogKey := plugins_EncodeLogKey mockExt;
     json_Marshal := json_Marshal mockExt;
     PutRecordBatch := fun c input => (inl (pickyReply input), c) |}.

(** It accepts every request whole. *)
Definition steadyExt : Externals :=
  {| RecordMap := option (list byte);
     LogValue := list byte;
     Strftime := bool;
     Client := unit;
     strftime_Format := strftime_Format mockExt;
     map_set := map_set mockExt;
     plugins_DataKeys := plugins_DataKeys mockExt;
     plugins_DecodeMap := plugins_DecodeMap mockExt;
     replaceDots_map := replaceDots_map mockExt;
     plugins_LogKey := plugins_LogKey mockExt;
     plugins_EncodeLogKey := plugins_EncodeLogKey mockExt;
     json_Marshal := json_Marshal mockExt;
     PutRecordBatch := fun c input =>
       (inl (response 0 (replicate (length (Records input)) accepted)), c) |}.

Definition pickyPlugin : OutputPlugin pickyExt :=
  NewOutputPlugin pickyExt "us-west-2" "stream" "" "" "" "" 0 false tt
    idleTimer None.

Definition steadyPlugin : OutputPlugin steadyExt :=
  NewOutputPlugin steadyExt "us-west-2" "stream" "" "" "" "" 0 false tt
    idleTimer None.

(** A plugin on the client that rejects the first record, holding two
    records. *)
Definition pickyTwo : OutputPlugin pickyExt :=
  set_batch pickyExt pickyPlugin [rec "a"; rec "b"] 2.

(** The plugins after one record was added. *)
Definition mockOne : OutputPlugin mockExt :=
  appendData mockExt (mockPlugin "" false []) (bytes_of "{}" ++ [Byte.x0a]).

Definition pickyOne : OutputPlugin pickyExt :=
  appendData pickyExt pickyPlugin (bytes_of "{}" ++ [Byte.x0a]).

Definition oneHeldPlain : OutputPlugin mockExt :=
  set_batch mockExt (mockPlugin "" false [])
    [ {| Data := payload 99 ++ [Byte.x0a] |} ] 100.

Definition steadyOne : OutputPlugin steadyExt :=
  appendData steadyExt steadyPlugin (bytes_of "{}" ++ [Byte.x0a]).

(** * Properties *)

Section Properties.

Variable ext : Externals.
Implicit Types (o : OutputPlugin ext) (rs : list firehose_Record).
Implicit Types (entries : list PutRecordBatchResponseEntry).
Implicit Types (data : list byte) (env : Env).

(** ** Sizes *)

Lemma len_app {A : Type} (l k : list A) : len (l ++ k) = len l + len k.
Proof. unfold len. rewrite length_app. lia. Qed.

Lemma len_nonneg {A : Type} (l : list A) : 0 <= len l.
Proof. unfold len. lia. Qed.

Lemma totalSize_app rs rs' :
  totalSize (rs ++ rs') = totalSize rs + totalSize rs'.
Proof. induction rs as [|r rs IH]; simpl; [lia | rewrite IH; lia]. Qed.

Lemma totalSize_nonneg rs : 0 <= totalSize rs.
Proof.
  induction rs as [|r rs IH]; simpl; [lia |].
  pose proof (len_nonneg (Data r)). lia.
Qed.

(** The running total of the loop is the sum of the specification. *)
Lemma sumDataLength_totalSize rs start :
  sumDataLength rs start = start + totalSize rs.
Proof.
  unfold sumDataLength. revert start.
  induction rs as [|r rs IH]; intros start; simpl; [lia |].
  rewrite IH. lia.
Qed.

(** Growing the record at position [i] grows the total by as much. *)
Lemma totalSize_insert rs i r data :
  rs !! i = Some r ->
  totalSize (<[ i := {| Data := Data r ++ data |} ]> rs)
  = totalSize rs + len data.
Proof.
  revert i. induction rs as [|r0 rs IH]; intros [|i] Hi; simpl in *;
    try discriminate.
  - injection Hi as ->. rewrite len_app. lia.
  - rewrite (IH _ Hi). lia.
Qed.

(** ** The walk over the outcomes *)

Lemma failedSubset_nil_r rs : failedSubset rs [] = [].
Proof. unfold failedSubset. by destruct rs. Qed.

Lemma failedSubset_cons r rs e entries :
  failedSubset (r :: rs) (e :: entries)
  = match ErrorMessage e with
    | Some _ => r :: failedSubset rs entries
    | None => failedSubset rs entries
    end.
Proof.
  unfold failedSubset. simpl. rewrite filter_cons. simpl.
  case_decide as He; unfold carriesError in He; simpl in He;
    destruct (ErrorMessage e); try reflexivity.
  - by destruct He.
  - exfalso. eauto.
Qed.

(** The retained records are taken from the batch without reordering. *)
Lemma failedSubset_sublist rs entries :
  failedSubset rs entries `sublist_of` rs.
Proof.
  revert entries. induction rs as [|r rs IH]; intros [|e entries].
  - by rewrite failedSubset_nil_r.
  - constructor.
  - rewrite failedSubset_nil_r. apply sublist_nil_l.
  - rewrite failedSubset_cons. destruct (ErrorMessage e).
    + by apply sublist_skip.
    + by apply sublist_cons.
Qed.

(** Without an overload signal, and with no outcome beyond the batch, the
    loop collects the records whose outcome carried an error. *)
Lemma collectFailed_done rs i entries acc :
  Forall (fun e => ~ unavailable e) entries ->
  (i + length entries <= length rs)%nat ->
  collectFailed rs i entries acc
  = Walk_done (acc ++ failedSubset (drop i rs) entries).
Proof.
  intros Hno. revert i acc.
  induction Hno as [|e entries He _ IH]; intros i acc Hlen; simpl.
  - by rewrite failedSubset_nil_r, app_nil_r.
  - simpl in Hlen.
    destruct (lookup_lt_is_Some_2 rs i) as [r Hr]; [lia |].
    rewrite Hr, (drop_S _ _ _ Hr), failedSubset_cons.
    unfold unavailable in He.
    destruct (ErrorMessage e); rewrite decide_False by done;
      rewrite IH by lia; [by rewrite <- app_assoc | done].
Qed.

(** With an overload signal among the outcomes, and no outcome beyond the
    batch, the loop stops at the signal. *)
Lemma collectFailed_unavailable rs i entries acc :
  Exists unavailable entries ->
  (i + length entries <= length rs)%nat ->
  collectFailed rs i entries acc = Walk_unavailable.
Proof.
  intros Hex. revert i acc.
  induction entries as [|e entries IH]; intros i acc Hlen.
  - by apply Exists_nil in Hex.
  - simpl in *.
    destruct (lookup_lt_is_Some_2 rs i) as [r Hr]; [lia |].
    rewrite Hr.
    destruct (decide (unavailable e)) as [He | He].
    + unfold unavailable in He.
      destruct (ErrorMessage e); by rewrite decide_True.
    + apply Exists_cons in Hex as [? | Hex]; [done |].
      unfold unavailable in He.
      destruct (ErrorMessage e); rewrite decide_False by done;
        apply IH; (done || lia).
Qed.

(** ** The response cases *)

(** C2.  Partial failure without an overload signal: when the reported
    count of failures is positive and below the number of records sent, no
    outcome has the service-unavailable code and the response has no more
    outcomes than records were sent, [processAPIResponse] returns FLB_OK
    with no error; the batch of the plugin it leaves is the records whose
    outcome carried an error, in their order in the batch sent; its
    [dataLength] is the sum of their byte lengths; its watchdog, its client
    and its configuration are those of before. *)
Theorem partial_failure_keeps_failed env o response :
  0 < Int64Value (FailedPutCount response) < len (records o) ->
  Forall (fun e => ~ unavailable e) (RequestResponses response) ->
  (length (RequestResponses response) <= length (records o))%nat ->
  let kept := failedSubset (records o) (RequestResponses response) in
  exists o',
    processAPIResponse ext env o response = Returned (FLB_OK, None) o'
    /\ records o' = kept
    /\ dataLength o' = totalSize kept
    /\ kept `sublist_of` records o
    /\ timer o' = timer o
    /\ client o' = client o
    /\ region o' = region o
    /\ deliveryStream o' = deliveryStream o
    /\ dataKeys o' = dataKeys o
    /\ timeKey o' = timeKey o
    /\ fmtStrftime o' = fmtStrftime o
    /\ logKey o' = logKey o
    /\ PluginID o' = PluginID o
    /\ replaceDots o' = replaceDots o
    /\ simpleAggregation o' = simpleAggregation o.
Proof.
  intros [Hpos Hlt] Hno Hlen kept.
  exists (set_batch ext o kept (totalSize kept)).
  split; [| split; [reflexivity | split; [reflexivity |]]].
  - unfold processAPIResponse.
    rewrite bool_decide_eq_true_2 by done.
    rewrite bool_decide_eq_false_2 by lia.
    rewrite (collectFailed_done _ 0 _ []) by (done || lia).
    rewrite drop_0, take_0, sumDataLength_totalSize. simpl.
    fold kept. by rewrite Z.add_0_l.
  - split; [apply failedSubset_sublist |]. by repeat split.
Qed.

(** C3.  Partial failure with an overload signal: when the reported count
    of failures is positive and below the number of records sent, some
    outcome has the service-unavailable code and the response has no more
    outcomes than records were sent, [processAPIResponse] returns FLB_RETRY
    with no error and the plugin, its batch and [dataLength] included, is
    what it was. *)
Theorem overload_signal_keeps_batch env o response :
  0 < Int64Value (FailedPutCount response) < len (records o) ->
  Exists unavailable (RequestResponses response) ->
  (length (RequestResponses response) <= length (records o))%nat ->
  processAPIResponse ext env o response = Returned (FLB_RETRY, None) o.
Proof.
  intros [Hpos Hlt] Hex Hlen. unfold processAPIResponse.
  rewrite bool_decide_eq_true_2 by done.
  rewrite bool_decide_eq_false_2 by lia.
  by rewrite collectFailed_unavailable by (done || lia).
Qed.

(** C4.  Total failure: when at least one record was sent and the reported
    count of failures equals the number of records sent,
    [processAPIResponse] returns FLB_RETRY with the "no records" error, the
    watchdog has been started (failing-since is set: to the current instant
    when it was clear, unchanged otherwise), and the batch and [dataLength]
    are what they were. *)
Theorem total_failure_arms_watchdog env o response :
  records o <> [] ->
  Int64Value (FailedPutCount response) = len (records o) ->
  exists o',
    processAPIResponse ext env o response
    = Returned
        (FLB_RETRY,
         Some (errorString
           "PutRecordBatch request returned with no records successfully recieved"))
        o'
    /\ o' = set_timer ext o (plugins.Start (tStart env) (timer o))
    /\ records o' = records o
    /\ dataLength o' = dataLength o
    /\ plugins.failingSince (timer o')
       = Some (default (tStart env) (plugins.failingSince (timer o))).
Proof.
  intros Hne Hall. eexists. split; [| split; [reflexivity |]].
  - unfold processAPIResponse. rewrite Hall.
    rewrite bool_decide_eq_true_2.
    + by rewrite bool_decide_eq_true_2.
    + unfold len. destruct (records o); [done | simpl; lia].
  - simpl. repeat split. unfold plugins.Start.
    destruct (plugins.failingSince (timer o)) eqn:Hsince; simpl;
      [by rewrite Hsince | done].
Qed.

(** C8.  Full success: when the reported count of failures is 0,
    [processAPIResponse] returns FLB_OK with no error, the watchdog has been
    reset (failing-since is clear), the batch is empty and [dataLength]
    is 0. *)
Theorem full_success_clears env o response :
  Int64Value (FailedPutCount response) = 0 ->
  exists o',
    processAPIResponse ext env o response = Returned (FLB_OK, None) o'
    /\ timer o' = plugins.Reset (timer o)
    /\ plugins.failingSince (timer o') = None
    /\ records o' = []
    /\ dataLength o' = 0.
Proof.
  intros Hzero. eexists. split.
  - unfold processAPIResponse. rewrite Hzero.
    by rewrite bool_decide_eq_false_2 by lia.
  - by rewrite take_0.
Qed.

(** ** The record encoder *)

Lemma len_truncatedSuffix : len (bytes_of truncatedSuffix) = 14.
Proof. reflexivity. Qed.

(** C6.  Truncation: let the encoded form of a record be what the encoding
    steps produced followed by the newline.  When it is longer than
    1,024,000 bytes, [processRecord] returns, without error, a prefix of the
    encoded form followed by "[Truncated...]", 1,024,000 bytes in all; when
    it is 1,024,000 bytes or shorter, [processRecord] returns the encoded
    form itself. *)
Theorem oversize_record_truncated o record enc :
  encodeRecord ext o record = (enc, None) ->
  let encoded := enc ++ [Byte.x0a] in
  (maximumRecordSize < len encoded ->
   exists kept,
     processRecord ext o record
     = (kept ++ bytes_of "[Truncated...]", None)
     /\ kept `prefix_of` encoded
     /\ len (kept ++ bytes_of "[Truncated...]") = 1024000)
  /\ (len encoded <= maximumRecordSize ->
      processRecord ext o record = (encoded, None)).
Proof.
  intros Henc encoded. unfold processRecord, terminate. rewrite Henc.
  fold encoded. split; intros Hlen.
  - rewrite bool_decide_eq_true_2 by done.
    eexists. split; [reflexivity |]. split; [apply prefix_take |].
    fold truncatedSuffix. rewrite len_app, len_truncatedSuffix.
    unfold len in *. rewrite length_take.
    change (Stdlib.Strings.String.length truncatedSuffix) with 14%nat.
    unfold maximumRecordSize in *. lia.
  - by rewrite bool_decide_eq_false_2 by lia.
Qed.

(** ** Appending to the batch *)

Lemma lookup_last_app {A : Type} (init : list A) (l : A) :
  (init ++ [l]) !! (length (init ++ [l]) - 1)%nat = Some l.
Proof.
  rewrite length_app. simpl.
  replace (length init + 1 - 1)%nat with (length init) by lia.
  by rewrite list_lookup_middle.
Qed.

Lemma insert_last_app {A : Type} (init : list A) (l x : A) :
  <[ (length (init ++ [l]) - 1)%nat := x ]> (init ++ [l]) = init ++ [x].
Proof.
  rewrite length_app. simpl.
  replace (length init + 1 - 1)%nat with (length init + 0)%nat by lia.
  by rewrite insert_app_r.
Qed.

(** With aggregation on and room in the last record, the bytes go there. *)
Lemma appendData_coalesce o data init l :
  simpleAggregation o = true ->
  records o = init ++ [l] ->
  len (Data l) + len data <= maximumRecordSize ->
  records (appendData ext o data) = init ++ [ {| Data := Data l ++ data |} ].
Proof.
  intros Hagg Hrs Hroom. unfold appendData. simpl.
  rewrite Hagg, Hrs, lookup_last_app, insert_last_app. simpl.
  rewrite bool_decide_eq_true_2.
  - by rewrite bool_decide_eq_true_2.
  - rewrite len_app. pose proof (len_nonneg init). unfold len at 2. simpl. lia.
Qed.

(** In the other cases a new entry is added. *)
Lemma appendData_fresh o data :
  simpleAggregation o = false \/ records o = []
  \/ (exists l, last (records o) = Some l
                /\ maximumRecordSize < len (Data l) + len data) ->
  records (appendData ext o data) = records o ++ [ {| Data := data |} ].
Proof.
  intros Hcase. unfold appendData. simpl.
  destruct (simpleAggregation o); simpl; [| done].
  case_bool_decide as Hpos; [| done].
  destruct Hcase as [? | [Hnil | (l & Hlast & Hbig)]]; [done | |].
  - rewrite Hnil in Hpos. unfold len in Hpos. simpl in Hpos. lia.
  - rewrite last_lookup in Hlast.
    replace (length (records o) - 1)%nat with (pred (length (records o)))
      by lia.
    rewrite Hlast. by rewrite bool_decide_eq_false_2 by lia.
Qed.

Lemma appendData_dataLength o data :
  dataLength (appendData ext o data) = dataLength o + len data.
Proof. reflexivity. Qed.

(** The two ways [AddRecord] reaches the append. *)
Lemma AddRecord_room env o record timeStamp stamped data :
  stampRecord ext o record timeStamp = Stamp_ok ext stamped ->
  processRecord ext o stamped = (data, None) ->
  batchFull ext o (len data) = false ->
  AddRecord ext env o record timeStamp
  = Returned FLB_OK (appendData ext o data).
Proof.
  intros Hstamp Hdata Hroom. unfold AddRecord, flushIfFull.
  rewrite Hstamp, Hdata, Hroom.
  by rewrite bool_decide_eq_false_2 by (intros H; by apply H).
Qed.

Lemma AddRecord_flushed env o record timeStamp stamped data err o1 :
  stampRecord ext o record timeStamp = Stamp_ok ext stamped ->
  processRecord ext o stamped = (data, None) ->
  batchFull ext o (len data) = true ->
  sendCurrentBatch ext env o = Returned (FLB_OK, err) o1 ->
  AddRecord ext env o record timeStamp
  = Returned FLB_OK (appendData ext o1 data).
Proof.
  intros Hstamp Hdata Hfull Hsent. unfold AddRecord, flushIfFull.
  rewrite Hstamp, Hdata, Hfull, Hsent.
  by rewrite bool_decide_eq_false_2 by (intros H; by apply H).
Qed.

(** Without aggregation the append is a plain one. *)
Lemma appendData_plain o data :
  simpleAggregation o = false ->
  appendData ext o data
  = set_batch ext o (records o ++ [ {| Data := data |} ])
      (dataLength o + len data).
Proof. intros Hagg. unfold appendData. by rewrite Hagg. Qed.

(** A run is the first call followed by the run of the others. *)
Lemma run_step env o c calls retCode o1 retCodes o2 :
  call ext env o c = Returned retCode o1 ->
  run ext o1 calls = Returned retCodes o2 ->
  run ext o ((env, c) :: calls) = Returned (retCode :: retCodes) o2.
Proof. intros Hcall Hrest. simpl. by rewrite Hcall, Hrest. Qed.

(** C7.  Aggregation: take a call of [AddRecord] that encodes its record to
    [data] and reaches the append with the plugin [o1] (no send was needed,
    or the send returned FLB_OK).  The call returns FLB_OK and adds the
    length of [data] to [dataLength].  When aggregation is enabled, the
    batch of [o1] ends with a record [l] and the length of [l]'s data plus
    that of [data] is at most 1,024,000, the batch is the same but for [l],
    which now holds its former data followed by [data].  When aggregation
    is disabled, or the batch of [o1] is empty, or its last record has no
    room, the batch is that of [o1] followed by a new record holding
    [data]. *)
Theorem aggregation_appends_to_last
    env o record timeStamp stamped data err o1 :
  stampRecord ext o record timeStamp = Stamp_ok ext stamped ->
  processRecord ext o stamped = (data, None) ->
  flushIfFull ext env o (len data) = Returned (FLB_OK, err) o1 ->
  exists o2,
    AddRecord ext env o record timeStamp = Returned FLB_OK o2
    /\ dataLength o2 = dataLength o1 + len data
    /\ (forall init l,
          simpleAggregation o1 = true ->
          records o1 = init ++ [l] ->
          len (Data l) + len data <= maximumRecordSize ->
          records o2 = init ++ [ {| Data := Data l ++ data |} ])
    /\ (simpleAggregation o1 = false \/ records o1 = []
        \/ (exists l, last (records o1) = Some l
                      /\ maximumRecordSize < len (Data l) + len data) ->
        records o2 = records o1 ++ [ {| Data := data |} ]).
Proof.
  intros Hstamp Hdata Hsent. exists (appendData ext o1 data).
  split; [| split; [apply appendData_dataLength | split]].
  - unfold AddRecord. rewrite Hstamp, Hdata, Hsent.
    by rewrite bool_decide_eq_false_2 by (intros H; by apply H).
  - intros init l. apply appendData_coalesce.
  - apply appendData_fresh.
Qed.

(** C9.  A failed implicit send: when the record is encoded, the test of
    the 500-record and 4 MiB limits holds, and the send it triggers returns
    a status other than FLB_OK, [AddRecord] returns that status and the
    plugin is the one the send left: the new record is not in the batch. *)
Theorem failed_flush_discards_record
    env o record timeStamp stamped data retCode err o1 :
  stampRecord ext o record timeStamp = Stamp_ok ext stamped ->
  processRecord ext o stamped = (data, None) ->
  batchFull ext o (len data) = true ->
  sendCurrentBatch ext env o = Returned (retCode, err) o1 ->
  retCode <> FLB_OK ->
  AddRecord ext env o record timeStamp = Returned retCode o1.
Proof.
  intros Hstamp Hdata Hfull Hsent Hcode.
  unfold AddRecord, flushIfFull. rewrite Hstamp, Hdata, Hfull, Hsent.
  by rewrite bool_decide_eq_true_2.
Qed.

(** C10.  A timestamp that cannot be formatted: when a time key is
    configured and the formatter reports an error, [AddRecord] returns
    FLB_ERROR, which is neither FLB_OK nor FLB_RETRY, and the plugin, its
    batch and [dataLength] included, is what it was. *)
Theorem bad_timestamp_returns_error env o record timeStamp f buf err :
  timeKey o <> "" ->
  fmtStrftime o = Some f ->
  strftime_Format ext f timeStamp = (buf, Some err) ->
  AddRecord ext env o record timeStamp = Returned FLB_ERROR o
  /\ FLB_ERROR <> FLB_OK /\ FLB_ERROR <> FLB_RETRY.
Proof.
  intros Hkey Hfmt Herr. split; [| done].
  unfold AddRecord, stampRecord.
  by rewrite decide_False, Hfmt, Herr.
Qed.

(** ** The tracked size *)

Lemma appendData_consistent o data :
  consistent ext o -> consistent ext (appendData ext o data).
Proof.
  unfold consistent. intros Ho. rewrite appendData_dataLength, Ho.
  unfold appendData. simpl.
  assert (Hfresh : totalSize (records o ++ [ {| Data := data |} ])
                   = totalSize (records o) + len data).
  { rewrite totalSize_app. simpl. lia. }
  destruct (simpleAggregation o && bool_decide (0 < len (records o)));
    [| by rewrite Hfresh].
  destruct (records o !! (length (records o) - 1)%nat) as [l |] eqn:Hl;
    [| by rewrite Hfresh].
  case_bool_decide; [| by rewrite Hfresh].
  by rewrite (totalSize_insert _ _ _ _ Hl).
Qed.

Lemma processAPIResponse_consistent env o response ret o' :
  consistent ext o ->
  processAPIResponse ext env o response = Returned ret o' ->
  consistent ext o'.
Proof.
  unfold consistent, processAPIResponse. intros Ho.
  repeat case_bool_decide.
  - intros [= _ <-]. exact Ho.
  - destruct (collectFailed _ _ _ _) as [failed | |]; intros Hret;
      [| | discriminate].
    + injection Hret as _ <-. simpl.
      by rewrite sumDataLength_totalSize, Z.add_0_l.
    + by injection Hret as _ <-.
  - intros [= _ <-]. by rewrite take_0.
Qed.

Lemma sendCurrentBatch_consistent env o ret o' :
  consistent ext o ->
  sendCurrentBatch ext env o = Returned ret o' ->
  consistent ext o'.
Proof.
  unfold sendCurrentBatch. intros Ho.
  case_bool_decide; [by intros [= _ <-] |].
  destruct (plugins.Check _ _); [discriminate |].
  destruct (PutRecordBatch _ _ _) as [[response | e] c].
  - apply processAPIResponse_consistent. exact Ho.
  - intros [= _ <-]. exact Ho.
Qed.

Lemma AddRecord_consistent env o record timeStamp retCode o' :
  consistent ext o ->
  AddRecord ext env o record timeStamp = Returned retCode o' ->
  consistent ext o'.
Proof.
  unfold AddRecord, flushIfFull. intros Ho.
  destruct (stampRecord _ _ _ _) as [stamped | e |];
    [| by intros [= _ <-] | discriminate].
  destruct (processRecord _ _ _) as [data [e |]]; [by intros [= _ <-] |].
  assert (Hsent : forall ret o1,
    (if batchFull ext o (len data) then sendCurrentBatch ext env o
     else Returned (FLB_OK, None) o) = Returned ret o1 ->
    consistent ext o1).
  { intros ret o1. destruct (batchFull _ _ _).
    - by apply sendCurrentBatch_consistent.
    - by intros [= _ <-]. }
  destruct (if batchFull ext o (len data) then _ else _)
    as [[rc e] o1 | |]; [| discriminate | discriminate].
  specialize (Hsent _ _ eq_refl).
  case_bool_decide; intros [= _ <-]; [done |].
  by apply appendData_consistent.
Qed.

Lemma Flush_consistent env o retCode o' :
  consistent ext o ->
  Flush ext env o = Returned retCode o' ->
  consistent ext o'.
Proof.
  unfold Flush. intros Ho.
  destruct (sendCurrentBatch ext env o) as [[rc e] o1 | |] eqn:Hsent;
    [| discriminate | discriminate].
  intros [= _ <-]. by eapply sendCurrentBatch_consistent.
Qed.

(** C5.  Size accounting: in every state a plugin reaches from
    [NewOutputPlugin] through completed [AddRecord], [Flush] and
    [sendCurrentBatch] operations, [dataLength] is the sum of the byte
    lengths of the data of the records in the batch. *)
Theorem dataLength_is_total_size o :
  reachable ext o -> dataLength o = totalSize (records o).
Proof.
  induction 1 as [| o o' _ IH Hstep]; [reflexivity |].
  destruct Hstep.
  - by eapply AddRecord_consistent.
  - by eapply Flush_consistent.
  - by eapply sendCurrentBatch_consistent.
Qed.

End Properties.

(** ** The 4 MiB limit after a partial failure *)

Section Oversized.

Variables big small next : list byte.
Hypothesis Hbig : len big = 1023999.
Hypothesis Hsmall : len small = 9.
Hypothesis Hnext : len next = 999999.

(** The double encodes a record to its text and the newline. *)
Lemma mock_processRecord (o : OutputPlugin mockExt) (text : list byte) :
  dataKeys o = "" -> replaceDots o = "" -> logKey o = "" ->
  len text < maximumRecordSize ->
  processRecord mockExt o (Some text) = (text ++ [Byte.x0a], None).
Proof.
  intros Hkeys Hdots Hlog Hlen.
  unfold processRecord, encodeRecord, terminate.
  rewrite Hkeys, Hdots, Hlog. simpl.
  rewrite bool_decide_eq_false_2; [done |].
  rewrite len_app. unfold len at 2. simpl. lia.
Qed.

Lemma mock_AddRecord_room c rs n (text : list byte) :
  len text < maximumRecordSize ->
  len rs <> maximumRecordsPerPut ->
  n + (len text + 1) <= maximumPutRecordBatchSize ->
  AddRecord mockExt mockEnv (overflowState c rs n) (Some text) 0
  = Returned FLB_OK
      (overflowState c (rs ++ [ {| Data := text ++ [Byte.x0a] |} ])
         (n + (len text + 1))).
Proof.
  intros Hlen Hcount Hsize.
  assert (Hnl : len (text ++ [Byte.x0a]) = len text + 1)
    by (by rewrite len_app).
  rewrite (AddRecord_room mockExt mockEnv _ _ _ (Some text)
             (text ++ [Byte.x0a])).
  - rewrite appendData_plain by reflexivity. by rewrite Hnl.
  - reflexivity.
  - by apply mock_processRecord.
  - unfold batchFull. rewrite Hnl.
    change (records (overflowState c rs n)) with rs.
    change (dataLength (overflowState c rs n)) with n.
    by rewrite !bool_decide_eq_false_2 by lia.
Qed.

(** The first request: four of the five records come back. *)
Lemma overflow_send r1 r2 r3 r4 r5 n :
  sendCurrentBatch mockExt mockEnv
    (overflowState (mockClient overflowReplies) [r1; r2; r3; r4; r5] n)
  = Returned (FLB_OK, None)
      (overflowState
         {| script := [inl (response 0 [])];
            received := [ {| DeliveryStreamName := Some "stream";
                             Records := [r1; r2; r3; r4; r5] |} ] |}
         [r1; r2; r3; r4] (totalSize [r1; r2; r3; r4])).
Proof.
  unfold sendCurrentBatch, processAPIResponse. simpl.
  unfold overflowState. simpl. do 2 f_equal. lia.
Qed.

Lemma overflow_AddRecord_flushed r1 r2 r3 r4 r5 n (text : list byte) :
  len text < maximumRecordSize ->
  maximumPutRecordBatchSize < n + (len text + 1) ->
  AddRecord mockExt mockEnv
    (overflowState (mockClient overflowReplies) [r1; r2; r3; r4; r5] n)
    (Some text) 0
  = Returned FLB_OK
      (overflowState
         {| script := [inl (response 0 [])];
            received := [ {| DeliveryStreamName := Some "stream";
                             Records := [r1; r2; r3; r4; r5] |} ] |}
         [r1; r2; r3; r4; {| Data := text ++ [Byte.x0a] |}]
         (totalSize [r1; r2; r3; r4] + (len text + 1))).
Proof.
  intros Hlen Hsize.
  assert (Hnl : len (text ++ [Byte.x0a]) = len text + 1)
    by (by rewrite len_app).
  etransitivity.
  - eapply AddRecord_flushed with (stamped := Some text).
    + reflexivity.
    + by apply mock_processRecord.
    + unfold batchFull. rewrite Hnl.
      change (dataLength (overflowState _ _ n)) with n.
      rewrite (bool_decide_eq_true_2 (maximumPutRecordBatchSize < _))
        by done.
      apply orb_true_r.
    + apply overflow_send.
  - rewrite appendData_plain by reflexivity. by rewrite Hnl.
Qed.

(** The second request carries whatever is held. *)
Lemma overflow_Flush first r rs n :
  exists o,
    Flush mockExt mockEnv
      (overflowState {| script := [inl (response 0 [])]; received := [first] |}
         (r :: rs) n)
    = Returned FLB_OK o
    /\ received (client o)
       = [first; {| DeliveryStreamName := Some "stream";
                    Records := r :: rs |}].
Proof. eexists. split; reflexivity. Qed.

Ltac limits :=
  unfold len, maximumRecordSize, maximumRecordsPerPut,
    maximumPutRecordBatchSize in *;
  simpl; lia.

Lemma overflow_run :
  exists o,
    run mockExt overflowPlugin (overflowCallsOf big small next)
    = Returned [FLB_OK; FLB_OK; FLB_OK; FLB_OK; FLB_OK; FLB_OK; FLB_OK] o
    /\ Records <$> received (client o) !! 1%nat
       = Some (overflowBatchOf big next).
Proof.
  destruct (overflow_Flush
    {| DeliveryStreamName := Some "stream";
       Records := [ {| Data := big ++ [Byte.x0a] |};
                    {| Data := big ++ [Byte.x0a] |};
                    {| Data := big ++ [Byte.x0a] |};
                    {| Data := big ++ [Byte.x0a] |};
                    {| Data := small ++ [Byte.x0a] |} ] |}
    {| Data := big ++ [Byte.x0a] |}
    [ {| Data := big ++ [Byte.x0a] |}; {| Data := big ++ [Byte.x0a] |};
      {| Data := big ++ [Byte.x0a] |}; {| Data := next ++ [Byte.x0a] |} ]
    (totalSize [ {| Data := big ++ [Byte.x0a] |};
                 {| Data := big ++ [Byte.x0a] |};
                 {| Data := big ++ [Byte.x0a] |};
                 {| Data := big ++ [Byte.x0a] |} ] + (len next + 1)))
    as (o & Hflush & Hreceived).
  exists o. split; [| by rewrite Hreceived].
  unfold overflowCallsOf.
  change overflowPlugin
    with (overflowState (mockClient overflowReplies) [] 0).
  do 5 (eapply run_step; [apply mock_AddRecord_room; limits |]).
  eapply run_step; [apply overflow_AddRecord_flushed; limits |].
  eapply run_step; [exact Hflush | reflexivity].
Qed.

(** The batch of the second request exceeds the limit. *)
Lemma overflowBatch_size :
  len (overflowBatchOf big next) = 5
  /\ totalSize (overflowBatchOf big next) = 5096000.
Proof.
  split; [reflexivity |].
  unfold overflowBatchOf. simpl. rewrite !len_app, Hbig, Hnext.
  reflexivity.
Qed.

End Oversized.

(** ** The scenario at its concrete records *)

Lemma len_payload n : 0 <= n -> len (payload n) = n.
Proof. intros Hn. unfold len, payload. rewrite length_replicate. lia. Qed.

(** C1.  The limits at the instant of a send fail to hold: a plugin of the
    double takes four records encoded to 1,024,000 bytes each, one encoded
    to 10 bytes and one encoded to 1,000,000 bytes, the first request (made
    for the sixth record) comes back with the first four records rejected
    and the fifth accepted, and then the plugin is flushed.  All seven calls
    return FLB_OK, and the second request the client is handed carries 5
    records of 5,096,000 bytes in all, more than the 4,194,304 bytes
    allowed. *)
Theorem oversized_batch_is_sent :
  exists o input,
    run mockExt overflowPlugin overflowCalls
    = Returned [FLB_OK; FLB_OK; FLB_OK; FLB_OK; FLB_OK; FLB_OK; FLB_OK] o
    /\ received (client o) !! 1%nat = Some input
    /\ len (Records input) = 5
    /\ totalSize (Records input) = 5096000
    /\ maximumPutRecordBatchSize < totalSize (Records input).
Proof.
  assert (Hbig : len (payload 1023999) = 1023999) by (apply len_payload; lia).
  assert (Hsmall : len (payload 9) = 9) by (apply len_payload; lia).
  assert (Hnext : len (payload 999999) = 999999) by (apply len_payload; lia).
  destruct (overflow_run _ _ _ Hbig Hsmall Hnext) as (o & Hrun & Hsecond).
  destruct (overflowBatch_size _ _ Hbig Hnext) as [Hcount Hsize].
  apply fmap_Some in Hsecond as (input & Hinput & Hbatch).
  exists o, input. rewrite Hbatch in Hcount, Hsize.
  split; [exact Hrun |]. split; [exact Hinput |].
  split; [exact Hcount |]. split; [exact Hsize |].
  rewrite Hsize. reflexivity.
Qed.

(** ** The theorems at concrete inputs *)

(** Two of five records rejected, those at positions 1 and 3. *)
Lemma partial_failure_witness :
  0 < Int64Value (FailedPutCount twoOfFive) < len (records fiveHeld)
  /\ Forall (fun e => ~ unavailable e) (RequestResponses twoOfFive)
  /\ (length (RequestResponses twoOfFive) <= length (records fiveHeld))%nat
  /\ failedSubset (records fiveHeld) (RequestResponses twoOfFive)
     = [rec "bb"; rec "dddd"]
  /\ totalSize [rec "bb"; rec "dddd"] = 6
  /\ exists o',
       processAPIResponse mockExt mockEnv fiveHeld twoOfFive
       = Returned (FLB_OK, None) o'
       /\ records o' = [rec "bb"; rec "dddd"]
       /\ dataLength o' = 6
       /\ [rec "bb"; rec "dddd"] `sublist_of` records fiveHeld
       /\ timer o' = timer fiveHeld
       /\ client o' = client fiveHeld
       /\ region o' = region fiveHeld
       /\ deliveryStream o' = deliveryStream fiveHeld
       /\ dataKeys o' = dataKeys fiveHeld
       /\ timeKey o' = timeKey fiveHeld
       /\ fmtStrftime o' = fmtStrftime fiveHeld
       /\ logKey o' = logKey fiveHeld
       /\ PluginID o' = PluginID fiveHeld
       /\ replaceDots o' = replaceDots fiveHeld
       /\ simpleAggregation o' = simpleAggregation fiveHeld.
Proof.
  assert (H1 : 0 < Int64Value (FailedPutCount twoOfFive)
               < len (records fiveHeld)) by (vm_compute; split; reflexivity).
  assert (H2 : Forall (fun e => ~ unavailable e) (RequestResponses twoOfFive))
    by (repeat constructor; discriminate).
  assert (H3 : (length (RequestResponses twoOfFive)
                <= length (records fiveHeld))%nat) by (simpl; lia).
  split; [exact H1 |]. split; [exact H2 |]. split; [exact H3 |].
  split; [reflexivity |]. split; [reflexivity |].
  exact (partial_failure_keeps_failed mockExt mockEnv fiveHeld twoOfFive
           H1 H2 H3).
Defined.

(** The same response with an overload signal at position 1. *)
Lemma overload_signal_witness :
  0 < Int64Value (FailedPutCount twoOfFiveOverloaded) < len (records fiveHeld)
  /\ Exists unavailable (RequestResponses twoOfFiveOverloaded)
  /\ (length (RequestResponses twoOfFiveOverloaded)
      <= length (records fiveHeld))%nat
  /\ processAPIResponse mockExt mockEnv fiveHeld twoOfFiveOverloaded
     = Returned (FLB_RETRY, None) fiveHeld.
Proof.
  assert (H1 : 0 < Int64Value (FailedPutCount twoOfFiveOverloaded)
               < len (records fiveHeld)) by (vm_compute; split; reflexivity).
  assert (H2 : Exists unavailable (RequestResponses twoOfFiveOverloaded))
    by (apply Exists_cons_tl, Exists_cons_hd; reflexivity).
  assert (H3 : (length (RequestResponses twoOfFiveOverloaded)
                <= length (records fiveHeld))%nat) by (simpl; lia).
  split; [exact H1 |]. split; [exact H2 |]. split; [exact H3 |].
  exact (overload_signal_keeps_batch mockExt mockEnv fiveHeld
           twoOfFiveOverloaded H1 H2 H3).
Defined.

(** Five of five records rejected. *)
Lemma total_failure_witness :
  records fiveHeld <> []
  /\ Int64Value (FailedPutCount fiveOfFive) = len (records fiveHeld)
  /\ exists o',
       processAPIResponse mockExt mockEnv fiveHeld fiveOfFive
       = Returned
           (FLB_RETRY,
            Some (errorString
              "PutRecordBatch request returned with no records successfully recieved"))
           o'
       /\ o' = set_timer mockExt fiveHeld
                 (plugins.Start (tStart mockEnv) (timer fiveHeld))
       /\ records o' = records fiveHeld
       /\ dataLength o' = dataLength fiveHeld
       /\ plugins.failingSince (timer o')
          = Some (default (tStart mockEnv)
                    (plugins.failingSince (timer fiveHeld))).
Proof.
  assert (H1 : records fiveHeld <> []) by discriminate.
  assert (H2 : Int64Value (FailedPutCount fiveOfFive) = len (records fiveHeld))
    by reflexivity.
  split; [exact H1 |]. split; [exact H2 |].
  exact (total_failure_arms_watchdog mockExt mockEnv fiveHeld fiveOfFive
           H1 H2).
Defined.

(** Five of five records accepted. *)
Lemma full_success_witness :
  Int64Value (FailedPutCount noneOfFive) = 0
  /\ exists o',
       processAPIResponse mockExt mockEnv fiveHeld noneOfFive
       = Returned (FLB_OK, None) o'
       /\ timer o' = plugins.Reset (timer fiveHeld)
       /\ plugins.failingSince (timer o') = None
       /\ records o' = []
       /\ dataLength o' = 0.
Proof.
  assert (H1 : Int64Value (FailedPutCount noneOfFive) = 0) by reflexivity.
  split; [exact H1 |].
  exact (full_success_clears mockExt mockEnv fiveHeld noneOfFive H1).
Defined.

(** The state after one record was added is reachable. *)
Lemma dataLength_witness :
  reachable mockExt
    (appendData mockExt (mockPlugin "" false []) (bytes_of "{}" ++ [Byte.x0a]))
  /\ dataLength
       (appendData mockExt (mockPlugin "" false [])
          (bytes_of "{}" ++ [Byte.x0a]))
     = totalSize
         (records
            (appendData mockExt (mockPlugin "" false [])
               (bytes_of "{}" ++ [Byte.x0a]))).
Proof.
  assert (H1 : reachable mockExt
    (appendData mockExt (mockPlugin "" false [])
       (bytes_of "{}" ++ [Byte.x0a]))).
  { apply (reachable_step mockExt (mockPlugin "" false [])).
    - unfold mockPlugin. apply reachable_new.
    - apply (step_AddRecord mockExt mockEnv _ (Some (bytes_of "{}")) 0 FLB_OK).
      reflexivity. }
  split; [exact H1 |].
  exact (dataLength_is_total_size mockExt _ H1).
Defined.

(** A record of two bytes, and one of 2,000,000 bytes. *)
Lemma oversize_record_witness :
  encodeRecord mockExt (mockPlugin "" false []) (Some (bytes_of "{}"))
  = (bytes_of "{}", None)
  /\ processRecord mockExt (mockPlugin "" false []) (Some (bytes_of "{}"))
     = (bytes_of "{}" ++ [Byte.x0a], None)
  /\ encodeRecord mockExt (mockPlugin "" false []) (Some (payload 2000000))
     = (payload 2000000, None)
  /\ exists kept,
       processRecord mockExt (mockPlugin "" false []) (Some (payload 2000000))
       = (kept ++ bytes_of "[Truncated...]", None)
       /\ kept `prefix_of` payload 2000000 ++ [Byte.x0a]
       /\ len (kept ++ bytes_of "[Truncated...]") = 1024000.
Proof.
  assert (H1 : encodeRecord mockExt (mockPlugin "" false [])
                 (Some (bytes_of "{}")) = (bytes_of "{}", None))
    by reflexivity.
  assert (H2 : encodeRecord mockExt (mockPlugin "" false [])
                 (Some (payload 2000000)) = (payload 2000000, None))
    by reflexivity.
  split; [exact H1 |]. split; [| split; [exact H2 |]].
  - apply (oversize_record_truncated mockExt _ _ _ H1). vm_compute.
    discriminate.
  - apply (oversize_record_truncated mockExt _ _ _ H2).
    rewrite len_app, len_payload by lia. reflexivity.
Defined.

(** Records of 100 and 200 bytes with aggregation on: one record of 300. *)
Lemma aggregation_witness :
  stampRecord mockExt oneHeld (Some (payload 199)) 0
  = Stamp_ok mockExt (Some (payload 199))
  /\ processRecord mockExt oneHeld (Some (payload 199))
     = (payload 199 ++ [Byte.x0a], None)
  /\ flushIfFull mockExt mockEnv oneHeld (len (payload 199 ++ [Byte.x0a]))
     = Returned (FLB_OK, None) oneHeld
  /\ exists o2,
       AddRecord mockExt mockEnv oneHeld (Some (payload 199)) 0
       = Returned FLB_OK o2
       /\ dataLength o2 = 300
       /\ records o2
          = [ {| Data := (payload 99 ++ [Byte.x0a])
                         ++ (payload 199 ++ [Byte.x0a]) |} ].
Proof.
  assert (H1 : stampRecord mockExt oneHeld (Some (payload 199)) 0
               = Stamp_ok mockExt (Some (payload 199))) by reflexivity.
  assert (H2 : processRecord mockExt oneHeld (Some (payload 199))
               = (payload 199 ++ [Byte.x0a], None)) by reflexivity.
  assert (H3 : flushIfFull mockExt mockEnv oneHeld
                 (len (payload 199 ++ [Byte.x0a]))
               = Returned (FLB_OK, None) oneHeld) by reflexivity.
  split; [exact H1 |]. split; [exact H2 |]. split; [exact H3 |].
  destruct (aggregation_appends_to_last mockExt mockEnv oneHeld
              (Some (payload 199)) 0 _ _ _ _ H1 H2 H3)
    as (o2 & Hret & Hsize & Hmerge & _).
  exists o2. split; [exact Hret |]. split; [exact Hsize |].
  apply (Hmerge [] {| Data := payload 99 ++ [Byte.x0a] |});
    [reflexivity | reflexivity | vm_compute; discriminate].
Defined.

(** A full batch and a request that fails in transport. *)
Lemma failed_flush_witness :
  stampRecord mockExt fullPlugin (Some (bytes_of "{}")) 0
  = Stamp_ok mockExt (Some (bytes_of "{}"))
  /\ processRecord mockExt fullPlugin (Some (bytes_of "{}"))
     = (bytes_of "{}" ++ [Byte.x0a], None)
  /\ batchFull mockExt fullPlugin (len (bytes_of "{}" ++ [Byte.x0a])) = true
  /\ sendCurrentBatch mockExt mockEnv fullPlugin
     = Returned
         (FLB_RETRY,
          Some (awserrError "ServiceUnavailableException" "slow down"))
         fullPluginFailed
  /\ FLB_RETRY <> FLB_OK
  /\ AddRecord mockExt mockEnv fullPlugin (Some (bytes_of "{}")) 0
     = Returned FLB_RETRY fullPluginFailed.
Proof.
  assert (H1 : stampRecord mockExt fullPlugin (Some (bytes_of "{}")) 0
               = Stamp_ok mockExt (Some (bytes_of "{}"))) by reflexivity.
  assert (H2 : processRecord mockExt fullPlugin (Some (bytes_of "{}"))
               = (bytes_of "{}" ++ [Byte.x0a], None)) by reflexivity.
  assert (H3 : batchFull mockExt fullPlugin
                 (len (bytes_of "{}" ++ [Byte.x0a])) = true)
    by (vm_compute; reflexivity).
  assert (H4 : sendCurrentBatch mockExt mockEnv fullPlugin
               = Returned
                   (FLB_RETRY,
                    Some (awserrError "ServiceUnavailableException"
                            "slow down"))
                   fullPluginFailed) by (vm_compute; reflexivity).
  assert (H5 : FLB_RETRY <> FLB_OK) by discriminate.
  split; [exact H1 |]. split; [exact H2 |]. split; [exact H3 |].
  split; [exact H4 |]. split; [exact H5 |].
  exact (failed_flush_discards_record mockExt mockEnv fullPlugin
           (Some (bytes_of "{}")) 0 _ _ _ _ _ H1 H2 H3 H4 H5).
Defined.

(** A time key and a formatter that fails. *)
Lemma bad_timestamp_witness :
  timeKey (mockPlugin "time" false []) <> ""
  /\ fmtStrftime (mockPlugin "time" false []) = Some false
  /\ strftime_Format mockExt false 0
     = ("", Some (errorString "cannot format"))
  /\ AddRecord mockExt mockEnv (mockPlugin "time" false [])
       (Some (bytes_of "{}")) 0
     = Returned FLB_ERROR (mockPlugin "time" false [])
  /\ FLB_ERROR <> FLB_OK /\ FLB_ERROR <> FLB_RETRY.
Proof.
  assert (H1 : timeKey (mockPlugin "time" false []) <> "") by discriminate.
  assert (H2 : fmtStrftime (mockPlugin "time" false []) = Some false)
    by reflexivity.
  assert (H3 : strftime_Format mockExt false 0
               = ("", Some (errorString "cannot format"))) by reflexivity.
  split; [exact H1 |]. split; [exact H2 |]. split; [exact H3 |].
  exact (bad_timestamp_returns_error mockExt mockEnv
           (mockPlugin "time" false []) (Some (bytes_of "{}")) 0
           false "" _ H1 H2 H3).
Defined.

(** * Further properties of the send and of the calls *)

Section Coverage.

Variable ext : Externals.
Implicit Types (o : OutputPlugin ext) (rs : list firehose_Record).
Implicit Types (entries : list PutRecordBatchResponseEntry).
Implicit Types (data : list byte) (env : Env).

(** ** The ways a response is processed and a batch is sent *)

Lemma processAPIResponse_cases env o response retCode err o' :
  processAPIResponse ext env o response = Returned (retCode, err) o' ->
  (0 < Int64Value (FailedPutCount response)
   /\ Int64Value (FailedPutCount response) = len (records o)
   /\ retCode = FLB_RETRY /\ is_Some err
   /\ o' = set_timer ext o (plugins.Start (tStart env) (timer o)))
  \/ (0 < Int64Value (FailedPutCount response)
      /\ Int64Value (FailedPutCount response) <> len (records o)
      /\ collectFailed (records o) 0 (RequestResponses response) []
         = Walk_unavailable
      /\ retCode = FLB_RETRY /\ err = None /\ o' = o)
  \/ (exists failed,
        0 < Int64Value (FailedPutCount response)
        /\ Int64Value (FailedPutCount response) <> len (records o)
        /\ collectFailed (records o) 0 (RequestResponses response) []
           = Walk_done failed
        /\ retCode = FLB_OK /\ err = None
        /\ o' = set_batch ext o failed (totalSize failed))
  \/ (Int64Value (FailedPutCount response) <= 0
      /\ retCode = FLB_OK /\ err = None
      /\ o' = set_batch ext (set_timer ext o (plugins.Reset (timer o))) [] 0).
Proof.
  unfold processAPIResponse. repeat case_bool_decide.
  - intros [= <- <- <-]. left. eauto 10.
  - destruct (collectFailed _ _ _ _) as [failed | |] eqn:Hwalk;
      intros Hret; [| | discriminate].
    + injection Hret as <- <- <-. right. right. left. exists failed.
      rewrite sumDataLength_totalSize, Z.add_0_l. eauto 10.
    + injection Hret as <- <- <-. right. left. eauto 10.
  - intros [= <- <- <-]. right. right. right.
    repeat split; (done || lia).
Qed.

Lemma sendCurrentBatch_cases env o retCode err o' :
  sendCurrentBatch ext env o = Returned (retCode, err) o' ->
  (records o = [] /\ retCode = FLB_OK /\ err = None /\ o' = o)
  \/ (exists e c,
        records o <> []
        /\ plugins.Check (tCheck env) (timer o) = false
        /\ PutRecordBatch ext (client o)
             {| DeliveryStreamName := Some (deliveryStream o);
                Records := records o |} = (inr e, c)
        /\ retCode = FLB_RETRY /\ err = Some e
        /\ o' = set_timer ext (set_client ext o c)
                  (plugins.Start (tStart env) (timer o)))
  \/ (exists response c,
        records o <> []
        /\ plugins.Check (tCheck env) (timer o) = false
        /\ PutRecordBatch ext (client o)
             {| DeliveryStreamName := Some (deliveryStream o);
                Records := records o |} = (inl response, c)
        /\ processAPIResponse ext env (set_client ext o c) response
           = Returned (retCode, err) o').
Proof.
  unfold sendCurrentBatch. case_bool_decide as Hlen.
  - intros [= <- <- <-]. left. repeat split.
    unfold len in Hlen. by destruct (records o).
  - assert (records o <> []) by (intros Hnil; by rewrite Hnil in Hlen).
    destruct (plugins.Check _ _) eqn:Hcheck; [discriminate |].
    destruct (PutRecordBatch _ _ _) as [[response | e] c] eqn:Hput.
    + intros Hret. right. right. eauto 10.
    + intros [= <- <- <-]. right. left. eauto 10.
Qed.

(** What the walk collects is taken, in order, from the batch. *)
Lemma collectFailed_sublist rs i entries acc failed :
  collectFailed rs i entries acc = Walk_done failed ->
  exists kept, failed = acc ++ kept /\ kept `sublist_of` drop i rs.
Proof.
  revert i acc. induction entries as [|e entries IH]; intros i acc; simpl.
  - intros [= <-]. exists []. split; [by rewrite app_nil_r |].
    apply sublist_nil_l.
  - assert (Hdrop : drop (S i) rs `sublist_of` drop i rs).
    { destruct (rs !! i) as [r |] eqn:Hr.
      - rewrite (drop_S _ _ _ Hr). by apply sublist_cons.
      - apply lookup_ge_None in Hr. rewrite !drop_ge by lia. done. }
    destruct (ErrorMessage e).
    + destruct (rs !! i) as [r |] eqn:Hr; [| discriminate].
      case_decide; [discriminate |]. intros Hwalk.
      destruct (IH _ _ Hwalk) as (kept & -> & Hsub).
      exists (r :: kept). split; [by rewrite <- app_assoc |].
      rewrite (drop_S _ _ _ Hr). by apply sublist_skip.
    + case_decide; [discriminate |]. intros Hwalk.
      destruct (IH _ _ Hwalk) as (kept & -> & Hsub).
      exists kept. split; [done |]. by etrans.
Qed.


Lemma sameConfig_refl o : sameConfig ext o o.
Proof. by repeat split. Qed.

Lemma sameConfig_trans o1 o2 o3 :
  sameConfig ext o1 o2 -> sameConfig ext o2 o3 -> sameConfig ext o1 o3.
Proof.
  unfold sameConfig. intros (-> & -> & -> & -> & -> & -> & -> & -> & ->) H.
  exact H.
Qed.

Lemma sendCurrentBatch_sameConfig env o ret o' :
  sendCurrentBatch ext env o = Returned ret o' -> sameConfig ext o o'.
Proof.
  destruct ret as [retCode err]. intros Hsend.
  apply sendCurrentBatch_cases in Hsend
    as [(_ & _ & _ & ->) | [(e & c & _ & _ & _ & _ & _ & ->)
                           | (response & c & _ & _ & _ & Hproc)]];
    [apply sameConfig_refl | by repeat split |].
  apply processAPIResponse_cases in Hproc
    as [(_ & _ & _ & _ & ->) | [(_ & _ & _ & _ & _ & ->)
       | [(failed & _ & _ & _ & _ & _ & ->) | (_ & _ & _ & ->)]]];
    by repeat split.
Qed.

Lemma call_sameConfig env o c retCode o' :
  call ext env o c = Returned retCode o' -> sameConfig ext o o'.
Proof.
  destruct c as [record timeStamp |]; simpl.
  - unfold AddRecord, flushIfFull.
    destruct (stampRecord _ _ _ _) as [stamped | e |];
      [| intros [= _ <-]; apply sameConfig_refl | discriminate].
    destruct (processRecord _ _ _) as [data [e |]];
      [intros [= _ <-]; apply sameConfig_refl |].
    destruct (batchFull _ _ _).
    + destruct (sendCurrentBatch ext env o) as [[rc e] o1 | |] eqn:Hsend;
        [| discriminate | discriminate].
      apply sendCurrentBatch_sameConfig in Hsend.
      case_bool_decide; intros [= _ <-]; [done |].
      eapply sameConfig_trans; [exact Hsend | by repeat split].
    + rewrite bool_decide_eq_false_2 by (intros H; by apply H).
      intros [= _ <-]. by repeat split.
  - unfold Flush.
    destruct (sendCurrentBatch ext env o) as [[rc e] o1 | |] eqn:Hsend;
      [| discriminate | discriminate].
    intros [= _ <-]. by eapply sendCurrentBatch_sameConfig.
Qed.

(** A send that does not return FLB_OK returns FLB_RETRY and keeps the
    batch. *)
Lemma sendCurrentBatch_retry env o retCode err o' :
  sendCurrentBatch ext env o = Returned (retCode, err) o' ->
  retCode <> FLB_OK ->
  retCode = FLB_RETRY
  /\ records o' = records o /\ dataLength o' = dataLength o.
Proof.
  intros Hsend Hcode.
  apply sendCurrentBatch_cases in Hsend
    as [(_ & -> & _ & _) | [(e & c & _ & _ & _ & -> & _ & ->)
                           | (response & c & _ & _ & _ & Hproc)]];
    [done | done |].
  apply processAPIResponse_cases in Hproc
    as [(_ & _ & -> & _ & ->) | [(_ & _ & _ & -> & _ & ->)
       | [(failed & _ & _ & _ & -> & _ & _) | (_ & -> & _ & _)]]]; done.
Qed.

(** X1.  A call that does not return FLB_OK leaves the batch alone: when
    [AddRecord] or [Flush] returns another status, the records held and
    [dataLength] are what they were before the call. *)
Theorem failed_call_keeps_batch env o c retCode o' :
  call ext env o c = Returned retCode o' ->
  retCode <> FLB_OK ->
  records o' = records o /\ dataLength o' = dataLength o.
Proof.
  intros Hcall Hcode. destruct c as [record timeStamp |]; simpl in Hcall.
  - unfold AddRecord, flushIfFull in Hcall.
    destruct (stampRecord _ _ _ _) as [stamped | e |];
      [| by injection Hcall as _ <- | discriminate].
    destruct (processRecord _ _ _) as [data [e |]];
      [by injection Hcall as <- _ |].
    destruct (batchFull _ _ _).
    + destruct (sendCurrentBatch ext env o) as [[rc e] o1 | |] eqn:Hsend;
        [| discriminate | discriminate].
      case_bool_decide as Hrc; [| by injection Hcall as <- _].
      injection Hcall as _ <-.
      by destruct (sendCurrentBatch_retry _ _ _ _ _ Hsend Hrc) as (_ & ? & ?).
    + rewrite bool_decide_eq_false_2 in Hcall by (intros H; by apply H).
      by injection Hcall as <- _.
  - unfold Flush in Hcall.
    destruct (sendCurrentBatch ext env o) as [[rc e] o1 | |] eqn:Hsend;
      [| discriminate | discriminate].
    injection Hcall as -> ->.
    by destruct (sendCurrentBatch_retry _ _ _ _ _ Hsend Hcode) as (_ & ? & ?).
Qed.

(** X2.  The statuses: [Flush] returns FLB_OK or FLB_RETRY, never
    FLB_ERROR; [AddRecord] returns FLB_OK, FLB_RETRY or FLB_ERROR, and
    FLB_ERROR only when a time key is configured. *)
Theorem call_statuses env o c retCode o' :
  call ext env o c = Returned retCode o' ->
  retCode = FLB_OK \/ retCode = FLB_RETRY
  \/ (retCode = FLB_ERROR /\ timeKey o <> "" /\ c <> Call_Flush ext).
Proof.
  intros Hcall. destruct c as [record timeStamp |]; simpl in Hcall.
  - unfold AddRecord, flushIfFull, stampRecord in Hcall.
    destruct (decide (timeKey o = "")) as [Hkey | Hkey].
    + destruct (processRecord _ _ _) as [data [e |]];
        [injection Hcall as <- _; by left |].
      destruct (batchFull _ _ _).
      * destruct (sendCurrentBatch ext env o) as [[rc e] o1 | |] eqn:Hsend;
          [| discriminate | discriminate].
        case_bool_decide as Hrc; injection Hcall as <- _; [| by left].
        right. left.
        by destruct (sendCurrentBatch_retry _ _ _ _ _ Hsend Hrc).
      * rewrite bool_decide_eq_false_2 in Hcall by (intros H; by apply H).
        injection Hcall as <- _. by left.
    + destruct (fmtStrftime o) as [f |]; [| discriminate].
      destruct (strftime_Format ext f timeStamp) as [buf [e |]];
        [injection Hcall as <- _; right; right; by repeat split |].
      destruct (processRecord _ _ _) as [data [e |]];
        [injection Hcall as <- _; by left |].
      destruct (batchFull _ _ _).
      * destruct (sendCurrentBatch ext env o) as [[rc e] o1 | |] eqn:Hsend;
          [| discriminate | discriminate].
        case_bool_decide as Hrc; injection Hcall as <- _; [| by left].
        right. left.
        by destruct (sendCurrentBatch_retry _ _ _ _ _ Hsend Hrc).
      * rewrite bool_decide_eq_false_2 in Hcall by (intros H; by apply H).
        injection Hcall as <- _. by left.
  - unfold Flush in Hcall.
    destruct (sendCurrentBatch ext env o) as [[rc e] o1 | |] eqn:Hsend;
      [| discriminate | discriminate].
    injection Hcall as -> ->.
    destruct (decide (retCode = FLB_OK)) as [-> | Hrc]; [by left |].
    right. left. by destruct (sendCurrentBatch_retry _ _ _ _ _ Hsend Hrc).
Qed.

Lemma Flush_inv env o retCode o' :
  Flush ext env o = Returned retCode o' ->
  exists err, sendCurrentBatch ext env o = Returned (retCode, err) o'.
Proof.
  unfold Flush.
  destruct (sendCurrentBatch ext env o) as [[rc e] o1 | |];
    [| discriminate | discriminate].
  intros [= <- <-]. by exists e.
Qed.

Lemma sendCurrentBatch_sublist env o ret o' :
  sendCurrentBatch ext env o = Returned ret o' ->
  records o' `sublist_of` records o.
Proof.
  destruct ret as [retCode err]. intros Hsend.
  apply sendCurrentBatch_cases in Hsend
    as [(_ & _ & _ & ->) | [(e & c & _ & _ & _ & _ & _ & ->)
                           | (response & c & _ & _ & _ & Hproc)]];
    [done | done |].
  apply processAPIResponse_cases in Hproc
    as [(_ & _ & _ & _ & ->) | [(_ & _ & _ & _ & _ & ->)
       | [(failed & _ & _ & Hwalk & _ & _ & ->) | (_ & _ & _ & ->)]]];
    [done | done | | apply sublist_nil_l].
  apply collectFailed_sublist in Hwalk as (kept & -> & Hsub).
  by rewrite drop_0 in Hsub.
Qed.

(** X3.  A flush only removes: after [Flush] returns, the batch is a
    sublist of the batch before (no record is added, duplicated or moved),
    whatever the client answered. *)
Theorem flush_only_removes env o retCode o' :
  Flush ext env o = Returned retCode o' ->
  records o' `sublist_of` records o.
Proof.
  intros Hflush. apply Flush_inv in Hflush as [err Hsend].
  by eapply sendCurrentBatch_sublist.
Qed.

(** X4.  The error of [processAPIResponse]: for a batch that is not empty,
    a call that returns carries an error exactly when the reported count of
    failures equals the number of records sent ("no progress", line 327),
    and then the status is FLB_RETRY. *)
Theorem error_iff_no_progress env o response retCode err o' :
  records o <> [] ->
  processAPIResponse ext env o response = Returned (retCode, err) o' ->
  (is_Some err <-> Int64Value (FailedPutCount response) = len (records o))
  /\ (is_Some err -> retCode = FLB_RETRY).
Proof.
  intros Hne Hproc.
  assert (Hpos : 0 < len (records o)).
  { unfold len. destruct (records o); [done | simpl; lia]. }
  apply processAPIResponse_cases in Hproc
    as [(_ & Hall & -> & Herr & _) | [(_ & Hsome & _ & -> & -> & _)
       | [(failed & _ & Hsome & _ & -> & -> & _) | (Hnone & -> & -> & _)]]].
  - done.
  - split; [split |]; [by intros [? ?] | done | by intros [? ?]].
  - split; [split |]; [by intros [? ?] | done | by intros [? ?]].
  - split; [split |]; [by intros [? ?] | lia | by intros [? ?]].
Qed.


(** X6.  The configuration is never written: after any sequence of calls
    that returns, the region, the delivery stream, the data keys, the time
    key, the formatter, the log key, the plugin id, the dot replacement and
    the aggregation switch are those of the start. *)
Theorem run_keeps_configuration o calls retCodes o' :
  run ext o calls = Returned retCodes o' -> sameConfig ext o o'.
Proof.
  revert o retCodes. induction calls as [|[env c] calls IH];
    intros o retCodes; simpl.
  - intros [= _ <-]. apply sameConfig_refl.
  - destruct (call ext env o c) as [rc o1 | |] eqn:Hcall;
      [| discriminate | discriminate].
    destruct (run ext o1 calls) as [rcs o2 | |] eqn:Hrun;
      [| discriminate | discriminate].
    intros [= _ <-]. eapply sameConfig_trans.
    + by eapply call_sameConfig.
    + by eapply IH.
Qed.

Lemma processAPIResponse_not_Exited env o response code :
  processAPIResponse ext env o response <> Exited code.
Proof.
  unfold processAPIResponse. repeat case_bool_decide; try done.
  by destruct (collectFailed _ _ _ _).
Qed.

(** X7.  The fatal exit: [sendCurrentBatch] ends the process exactly when
    the batch is not empty, failing-since is set and more than the threshold
    has elapsed at the poll; the exit code is 1.  With an empty batch the
    watchdog is not polled. *)
Theorem exit_iff_watchdog_expired env o code :
  sendCurrentBatch ext env o = Exited code
  <-> code = 1 /\ records o <> []
      /\ exists since,
           plugins.failingSince (timer o) = Some since
           /\ plugins.threshold (timer o) < tCheck env - since.
Proof.
  unfold sendCurrentBatch, plugins.Check. split.
  - case_bool_decide as Hlen; [discriminate |].
    assert (records o <> []) by (intros Hnil; by rewrite Hnil in Hlen).
    destruct (plugins.failingSince (timer o)) as [since |].
    + case_bool_decide as Hover.
      * intros [= <-]. eauto.
      * destruct (PutRecordBatch _ _ _) as [[response | e] c];
          [| discriminate].
        intros Hproc. by apply processAPIResponse_not_Exited in Hproc.
    + destruct (PutRecordBatch _ _ _) as [[response | e] c];
        [| discriminate].
      intros Hproc. by apply processAPIResponse_not_Exited in Hproc.
  - intros (-> & Hne & since & -> & Hover).
    rewrite bool_decide_eq_false_2.
    + by rewrite bool_decide_eq_true_2.
    + unfold len. destruct (records o); [done | simpl; lia].
Qed.

(** X8.  The watchdog's clock is not restarted: after a send that returns,
    the threshold is unchanged, and when failing-since was set before, it
    is the same instant afterwards unless the send was a full success
    (FLB_OK, no error, empty batch), which clears it. *)
Theorem failing_since_kept_or_cleared env o retCode err o' since :
  sendCurrentBatch ext env o = Returned (retCode, err) o' ->
  plugins.failingSince (timer o) = Some since ->
  plugins.threshold (timer o') = plugins.threshold (timer o)
  /\ (plugins.failingSince (timer o') = Some since
      \/ (plugins.failingSince (timer o') = None
          /\ retCode = FLB_OK /\ err = None /\ records o' = [])).
Proof.
  intros Hsend Hsince.
  assert (Hstart : forall now,
    plugins.Start now (timer o) = timer o).
  { intros now. unfold plugins.Start. by rewrite Hsince. }
  apply sendCurrentBatch_cases in Hsend
    as [(_ & _ & _ & ->) | [(e & c & _ & _ & _ & _ & _ & ->)
                           | (response & c & _ & _ & _ & Hproc)]].
  - eauto.
  - simpl. rewrite Hstart. eauto.
  - apply processAPIResponse_cases in Hproc
      as [(_ & _ & _ & _ & ->) | [(_ & _ & _ & _ & _ & ->)
         | [(failed & _ & _ & _ & _ & _ & ->) | (_ & -> & -> & ->)]]];
      simpl; rewrite ?Hstart; eauto 10.
Qed.

(** ** The records held *)

Lemma AddRecord_cases env o record timeStamp retCode o' :
  AddRecord ext env o record timeStamp = Returned retCode o' ->
  (retCode = FLB_ERROR /\ o' = o /\ timeKey o <> "")
  \/ (exists stamped data e,
        stampRecord ext o record timeStamp = Stamp_ok ext stamped
        /\ processRecord ext o stamped = (data, Some e)
        /\ retCode = FLB_OK /\ o' = o)
  \/ (exists stamped data,
        stampRecord ext o record timeStamp = Stamp_ok ext stamped
        /\ processRecord ext o stamped = (data, None)
        /\ batchFull ext o (len data) = false
        /\ retCode = FLB_OK /\ o' = appendData ext o data)
  \/ (exists stamped data err o1,
        stampRecord ext o record timeStamp = Stamp_ok ext stamped
        /\ processRecord ext o stamped = (data, None)
        /\ batchFull ext o (len data) = true
        /\ sendCurrentBatch ext env o = Returned (FLB_OK, err) o1
        /\ retCode = FLB_OK /\ o' = appendData ext o1 data)
  \/ (exists stamped data err,
        stampRecord ext o record timeStamp = Stamp_ok ext stamped
        /\ processRecord ext o stamped = (data, None)
        /\ batchFull ext o (len data) = true
        /\ sendCurrentBatch ext env o = Returned (retCode, err) o'
        /\ retCode <> FLB_OK).
Proof.
  unfold AddRecord, flushIfFull.
  destruct (stampRecord ext o record timeStamp) as [stamped | e |] eqn:Hstamp;
    [| | discriminate].
  - destruct (processRecord _ _ _) as [data [e |]] eqn:Hdata.
    { intros [= <- <-]. right. left. eauto 10. }
    destruct (batchFull _ _ _) eqn:Hfull.
    + destruct (sendCurrentBatch ext env o) as [[rc e] o1 | |] eqn:Hsend;
        [| discriminate | discriminate].
      case_bool_decide as Hrc; intros [= <- <-].
      * do 4 right. eauto 10.
      * subst rc. do 3 right. left. eauto 10.
    + rewrite bool_decide_eq_false_2 by (intros H; by apply H).
      intros [= <- <-]. right. right. left. eauto 10.
  - intros [= <- <-]. left. repeat split.
    unfold stampRecord in Hstamp. case_decide; [discriminate | done].
Qed.

Lemma len_pos_nonempty {A : Type} (l : list A) : l <> [] -> 0 < len l.
Proof. unfold len. destruct l; [done | simpl; lia]. Qed.

(** The result of the newline and the truncation is within the bounds. *)
Lemma terminate_fits data : 1 <= len (terminate data) <= maximumRecordSize.
Proof.
  unfold terminate. pose proof (len_nonneg data) as Hdata.
  case_bool_decide as Hover.
  - rewrite len_app, len_truncatedSuffix.
    unfold len in *. rewrite length_take.
    change (Stdlib.Strings.String.length truncatedSuffix) with 14%nat.
    unfold maximumRecordSize in *. lia.
  - rewrite len_app in *. change (len [Byte.x0a]) with 1 in *. lia.
Qed.

Lemma processRecord_fits_data o record data :
  processRecord ext o record = (data, None) ->
  1 <= len data <= maximumRecordSize.
Proof.
  unfold processRecord.
  destruct (encodeRecord ext o record) as [enc [e |]]; [discriminate |].
  intros [= <-]. apply terminate_fits.
Qed.

(** X9.  Every payload fits: whenever [processRecord] succeeds, its result
    has at least 1 byte and at most 1,024,000 bytes, whatever the encoder
    produced. *)
Theorem processed_record_fits o record data :
  processRecord ext o record = (data, None) ->
  1 <= len data <= 1024000.
Proof. apply processRecord_fits_data. Qed.

Lemma Forall_sublist_of {A : Type} (P : A -> Prop) (l k : list A) :
  l `sublist_of` k -> Forall P k -> Forall P l.
Proof.
  induction 1 as [| x l k _ IH | x l k _ IH]; intros Hk;
    [done | |]; apply Forall_cons in Hk as [Hx Hk]; auto.
Qed.

Lemma appendData_fits o data :
  1 <= len data <= maximumRecordSize ->
  Forall recordFits (records o) ->
  Forall recordFits (records (appendData ext o data)).
Proof.
  intros Hdata Hheld. unfold appendData. simpl.
  assert (Hfresh : Forall recordFits (records o ++ [ {| Data := data |} ])).
  { apply Forall_app. split; [done |]. by apply Forall_singleton. }
  destruct (simpleAggregation o && bool_decide (0 < len (records o)));
    [| done].
  destruct (records o !! (length (records o) - 1)%nat) as [l |] eqn:Hl;
    [| done].
  case_bool_decide as Hroom; [| done].
  apply Forall_insert; [done |].
  unfold recordFits. simpl. rewrite len_app.
  pose proof (len_nonneg (Data l)). lia.
Qed.

Lemma appendData_length o data :
  (length (records (appendData ext o data)) <= length (records o) + 1)%nat.
Proof.
  unfold appendData. simpl.
  assert (Hfresh : (length (records o ++ [ {| Data := data |} ])
                    <= length (records o) + 1)%nat)
    by (rewrite length_app; simpl; lia).
  destruct (simpleAggregation o && bool_decide (0 < len (records o)));
    [| done].
  destruct (records o !! (length (records o) - 1)%nat) as [l |]; [| done].
  case_bool_decide; [| done]. rewrite length_insert. lia.
Qed.

Lemma step_fits o o' :
  step ext o o' ->
  Forall recordFits (records o) -> Forall recordFits (records o').
Proof.
  intros Hstep Hheld.
  destruct Hstep as [env o record timeStamp retCode o' Hadd
                    | env o retCode o' Hflush | env o ret o' Hsend].
  - apply AddRecord_cases in Hadd
      as [(_ & -> & _) | [(stamped & data & e & _ & _ & _ & ->)
         | [(stamped & data & _ & Hdata & _ & _ & ->)
         | [(stamped & data & err & o1 & _ & Hdata & _ & Hsend & _ & ->)
         | (stamped & data & err & _ & _ & _ & Hsend & _)]]]];
      [done | done | | |].
    + apply appendData_fits; [by eapply processRecord_fits_data | done].
    + apply appendData_fits; [by eapply processRecord_fits_data |].
      apply sendCurrentBatch_sublist in Hsend.
      by eapply Forall_sublist_of.
    + apply sendCurrentBatch_sublist in Hsend. by eapply Forall_sublist_of.
  - apply Flush_inv in Hflush as [err Hsend].
    apply sendCurrentBatch_sublist in Hsend. by eapply Forall_sublist_of.
  - apply sendCurrentBatch_sublist in Hsend. by eapply Forall_sublist_of.
Qed.

Lemma step_consistent o o' :
  step ext o o' -> consistent ext o -> consistent ext o'.
Proof.
  intros [env o1 record timeStamp retCode o2 Hadd
         | env o1 retCode o2 Hflush | env o1 ret o2 Hsend] Hcons.
  - by eapply AddRecord_consistent.
  - by eapply Flush_consistent.
  - by eapply sendCurrentBatch_consistent.
Qed.

(** X10.  The per-record limit is kept: in every state a plugin reaches
    from [NewOutputPlugin], each record held has at least 1 byte and at
    most 1,024,000 bytes, with or without aggregation and whatever the
    client answers. *)
Theorem held_records_fit o :
  reachable ext o ->
  Forall (fun r => 1 <= len (Data r) <= 1024000) (records o).
Proof.
  induction 1 as [| o o' _ IH Hstep]; [constructor |].
  by apply (step_fits o o').
Qed.

(** ** The limits of a request *)

(** Each outcome with an error message takes one record. *)
Lemma collectFailed_length rs i entries acc failed :
  collectFailed rs i entries acc = Walk_done failed ->
  length failed
  = (length acc + length (filter carriesError entries))%nat.
Proof.
  revert i acc. induction entries as [|e entries IH]; intros i acc; simpl.
  - intros [= <-]. simpl. lia.
  - destruct (ErrorMessage e) as [msg |] eqn:Hmsg.
    + destruct (rs !! i) as [r |]; [| discriminate].
      case_decide; [discriminate |]. intros Hwalk.
      rewrite (IH _ _ Hwalk), length_app, filter_cons_True; [simpl; lia |].
      unfold carriesError. rewrite Hmsg. eauto.
    + case_decide; [discriminate |]. intros Hwalk.
      rewrite (IH _ _ Hwalk), filter_cons_False; [done |].
      unfold carriesError. rewrite Hmsg. by intros [? ?].
Qed.

(** With well-formed replies, FLB_OK from a batch that is not empty means
    that a record left the batch. *)
Lemma sendCurrentBatch_progress env o err o' :
  wellFormedReplies ext ->
  sendCurrentBatch ext env o = Returned (FLB_OK, err) o' ->
  records o <> [] ->
  (length (records o') < length (records o))%nat.
Proof.
  intros Hwf Hsend Hne.
  assert (Hpos : (0 < length (records o))%nat).
  { destruct (records o); [done | simpl; lia]. }
  apply sendCurrentBatch_cases in Hsend
    as [(Hnil & _) | [(e & c & _ & _ & _ & Hrc & _)
                     | (response & c & _ & _ & Hput & Hproc)]];
    [done | discriminate |].
  destruct (Hwf _ _ _ _ Hput) as [Hsame Hcount]. simpl in Hsame.
  apply processAPIResponse_cases in Hproc
    as [(_ & _ & Hrc & _) | [(_ & _ & _ & Hrc & _)
       | [(failed & _ & Hsome & Hwalk & _ & _ & ->) | (_ & _ & _ & ->)]]];
    [discriminate | discriminate | | done].
  simpl in *.
  pose proof (collectFailed_length _ _ _ _ _ Hwalk) as Hfailed.
  apply collectFailed_sublist in Hwalk as (kept & -> & Hsub).
  rewrite drop_0 in Hsub. apply sublist_length in Hsub.
  simpl in *. rewrite Hcount in Hsome. unfold len in Hsome. lia.
Qed.

(** X11.  FLB_OK means progress: with a client whose responses are well
    formed, a [Flush] of a batch that is not empty that returns FLB_OK
    leaves strictly fewer records in the batch. *)
Theorem ok_flush_makes_progress env o o' :
  wellFormedReplies ext ->
  records o <> [] ->
  Flush ext env o = Returned FLB_OK o' ->
  (length (records o') < length (records o))%nat.
Proof.
  intros Hwf Hne Hflush. apply Flush_inv in Hflush as [err Hsend].
  by eapply sendCurrentBatch_progress.
Qed.

Lemma step_count o o' :
  wellFormedReplies ext ->
  step ext o o' ->
  len (records o) <= maximumRecordsPerPut ->
  len (records o') <= maximumRecordsPerPut.
Proof.
  intros Hwf Hstep Hheld.
  assert (Hsub : forall env o1 ret o2,
    sendCurrentBatch ext env o1 = Returned ret o2 ->
    len (records o2) <= len (records o1)).
  { intros env o1 ret o2 Hsend. apply sendCurrentBatch_sublist in Hsend.
    apply sublist_length in Hsend. unfold len. lia. }
  destruct Hstep as [env o record timeStamp retCode o' Hadd
                    | env o retCode o' Hflush | env o ret o' Hsend].
  - apply AddRecord_cases in Hadd
      as [(_ & -> & _) | [(stamped & data & e & _ & _ & _ & ->)
         | [(stamped & data & _ & _ & Hroom & _ & ->)
         | [(stamped & data & err & o1 & _ & _ & _ & Hsend & _ & ->)
         | (stamped & data & err & _ & _ & _ & Hsend & _)]]]];
      [done | done | | |].
    + unfold batchFull in Hroom. apply orb_false_iff in Hroom as [Hcount _].
      apply bool_decide_eq_false in Hcount.
      pose proof (appendData_length o data). unfold len in *. lia.
    + pose proof (appendData_length o1 data) as Hone.
      destruct (decide (records o = [])) as [Hnil | Hne].
      * apply Hsub in Hsend. rewrite Hnil in Hsend.
        unfold len, maximumRecordsPerPut in *. simpl in Hsend. lia.
      * pose proof (sendCurrentBatch_progress _ _ _ _ Hwf Hsend Hne).
        unfold len in *. lia.
    + apply Hsub in Hsend. lia.
  - apply Flush_inv in Hflush as [err Hsend]. apply Hsub in Hsend. lia.
  - apply Hsub in Hsend. lia.
Qed.

(** X12.  The record limit of a request: with a client whose responses are
    well formed, a plugin never holds more than 500 records, so no request
    carries more. *)
Theorem batch_count_bounded o :
  wellFormedReplies ext ->
  reachable ext o ->
  len (records o) <= 500.
Proof.
  intros Hwf. induction 1 as [| o o' _ IH Hstep]; [done |].
  by apply (step_count o o').
Qed.

Lemma totalSize_fits rs :
  Forall recordFits rs -> totalSize rs <= maximumRecordSize * len rs.
Proof.
  induction 1 as [| r rs [_ Hr] _ IH]; [done |].
  change (len (r :: rs)) with (Z.of_nat (S (length rs))).
  simpl totalSize. unfold len in *. lia.
Qed.

(** X13.  The tracked size stays small: with a client whose responses are
    well formed, [dataLength] is between 0 and 512,000,000 in every state a
    plugin reaches, far from the range of Go's [int]. *)
Theorem dataLength_bounded o :
  wellFormedReplies ext ->
  reachable ext o ->
  0 <= dataLength o <= 512000000.
Proof.
  intros Hwf Hreach.
  assert (Hinv : consistent ext o /\ Forall recordFits (records o)
                 /\ len (records o) <= maximumRecordsPerPut).
  { induction Hreach as [| o o' _ IH Hstep];
      [split; [reflexivity | split; [apply Forall_nil_2 | done]] |].
    destruct IH as (Hcons & Hfits & Hcount). repeat split.
    - by apply (step_consistent o o').
    - by apply (step_fits o o').
    - by apply (step_count o o'). }
  destruct Hinv as (Hcons & Hfits & Hcount). rewrite Hcons.
  pose proof (totalSize_nonneg (records o)).
  pose proof (totalSize_fits _ Hfits).
  unfold maximumRecordSize, maximumRecordsPerPut in *. nia.
Qed.

(** Without partial failures a send that returns FLB_OK empties the
    batch. *)
Lemma sendCurrentBatch_all_or_nothing env o retCode err o' :
  neverPartial ext ->
  consistent ext o ->
  sendCurrentBatch ext env o = Returned (retCode, err) o' ->
  (retCode = FLB_OK /\ records o' = [] /\ dataLength o' = 0)
  \/ (retCode = FLB_RETRY
      /\ records o' = records o /\ dataLength o' = dataLength o).
Proof.
  intros Hnp Hcons Hsend.
  apply sendCurrentBatch_cases in Hsend
    as [(Hnil & -> & _ & ->) | [(e & c & _ & _ & _ & -> & _ & ->)
                              | (response & c & _ & _ & Hput & Hproc)]].
  - left. unfold consistent in Hcons. rewrite Hnil in Hcons. by rewrite Hnil.
  - by right.
  - specialize (Hnp _ _ _ _ Hput). simpl in Hnp.
    apply processAPIResponse_cases in Hproc
      as [(_ & _ & -> & _ & ->) | [(_ & _ & _ & -> & _ & ->)
         | [(failed & Hpos & Hsome & _) | (_ & -> & _ & ->)]]].
    + by right.
    + by right.
    + simpl in Hsome. lia.
    + by left.
Qed.

Lemma step_limits o o' :
  neverPartial ext ->
  step ext o o' ->
  consistent ext o /\ len (records o) <= maximumRecordsPerPut
  /\ dataLength o <= maximumPutRecordBatchSize ->
  consistent ext o' /\ len (records o') <= maximumRecordsPerPut
  /\ dataLength o' <= maximumPutRecordBatchSize.
Proof.
  intros Hnp Hstep (Hcons & Hcount & Hsize).
  split; [by apply (step_consistent o o') |].
  assert (Hsend : forall env retCode err o1,
    sendCurrentBatch ext env o = Returned (retCode, err) o1 ->
    len (records o1) <= maximumRecordsPerPut
    /\ dataLength o1 <= maximumPutRecordBatchSize).
  { intros env retCode err o1 Hsend.
    destruct (sendCurrentBatch_all_or_nothing _ _ _ _ _ Hnp Hcons Hsend)
      as [(_ & -> & ->) | (_ & -> & ->)]; done. }
  destruct Hstep as [env o record timeStamp retCode o' Hadd
                    | env o retCode o' Hflush | env o [retCode err] o' Hs].
  - apply AddRecord_cases in Hadd
      as [(_ & -> & _) | [(stamped & data & e & _ & _ & _ & ->)
         | [(stamped & data & _ & _ & Hroom & _ & ->)
         | [(stamped & data & err & o1 & _ & Hdata & _ & Hok & _ & ->)
         | (stamped & data & err & _ & _ & _ & Hretry & _)]]]];
      [done | done | | | by eapply Hsend].
    + unfold batchFull in Hroom.
      apply orb_false_iff in Hroom as [Hfull Hover].
      apply bool_decide_eq_false in Hfull, Hover.
      pose proof (appendData_length o data).
      rewrite appendData_dataLength. unfold len in *. lia.
    + apply processRecord_fits_data in Hdata.
      destruct (sendCurrentBatch_all_or_nothing _ _ _ _ _ Hnp Hcons Hok)
        as [(_ & Hnil & Hzero) | (Hrc & _)]; [| discriminate].
      pose proof (appendData_length o1 data) as Hone.
      assert (Hempty : length (records o1) = 0%nat) by (by rewrite Hnil).
      rewrite appendData_dataLength, Hzero.
      unfold len, maximumRecordsPerPut, maximumRecordSize,
        maximumPutRecordBatchSize in *. lia.
  - apply Flush_inv in Hflush as [err Hflush]. by eapply Hsend.
  - by eapply Hsend.
Qed.

(** X14.  The limits without partial failures: with a client that reports
    the failure of no record or of all of them, a plugin never holds more
    than 500 records nor more than 4,194,304 bytes, so every request is
    within the Firehose limits. *)
Theorem limits_hold_without_partial_failure o :
  neverPartial ext ->
  reachable ext o ->
  len (records o) <= 500 /\ totalSize (records o) <= 4194304.
Proof.
  intros Hnp Hreach.
  assert (Hinv : consistent ext o /\ len (records o) <= maximumRecordsPerPut
                 /\ dataLength o <= maximumPutRecordBatchSize).
  { induction Hreach as [| o o' _ IH Hstep]; [by repeat split |].
    by apply (step_limits o o'). }
  destruct Hinv as (Hcons & Hcount & Hsize). by rewrite <- Hcons.
Qed.

(** ** Errors of the encoding *)

(** X15.  Which encoding errors are reported: once the record is decoded,
    without a log key an error of the JSON encoder makes [processRecord]
    fail with that error; with a log key, once the log value is extracted,
    [processRecord] succeeds with the bytes [plugins.EncodeLogKey] returned
    (newline added, truncated if too long) whether or not it reported an
    error: its error is stored in the [err] of the inner block and never
    read. *)
Theorem encode_error_reporting o record decoded :
  let selected :=
    if decide (dataKeys o = "") then record
    else plugins_DataKeys ext (dataKeys o) record in
  let renamed :=
    if decide (replaceDots o = "") then decoded
    else replaceDots_map ext decoded (replaceDots o) in
  plugins_DecodeMap ext selected = (decoded, None) ->
  (logKey o = "" ->
   forall data e,
     json_Marshal ext renamed = (data, Some e) ->
     processRecord ext o record = ([], Some e))
  /\ (logKey o <> "" ->
      forall log,
        plugins_LogKey ext renamed (logKey o) = (log, None) ->
        processRecord ext o record
        = (terminate (fst (plugins_EncodeLogKey ext log)), None)).
Proof.
  intros selected renamed Hdecode.
  unfold processRecord, encodeRecord. fold selected. rewrite Hdecode.
  fold renamed. split; intros Hkey.
  - intros data e Hjson. by rewrite decide_True, Hjson.
  - intros log Hlog. by rewrite decide_False, Hlog.
Qed.

(** ** Dropped records *)

Lemma stampRecord_sameConfig o o' record timeStamp :
  sameConfig ext o o' ->
  stampRecord ext o' record timeStamp = stampRecord ext o record timeStamp.
Proof.
  intros (_ & _ & _ & Htime & Hfmt & _). unfold stampRecord.
  by rewrite Htime, Hfmt.
Qed.

Lemma processRecord_sameConfig o o' record :
  sameConfig ext o o' ->
  processRecord ext o' record = processRecord ext o record.
Proof.
  intros (_ & _ & Hkeys & _ & _ & Hlog & _ & Hdots & _).
  unfold processRecord, encodeRecord. by rewrite Hkeys, Hlog, Hdots.
Qed.

Lemma dropped_sameConfig o o' c :
  sameConfig ext o o' -> dropped ext o' c = dropped ext o c.
Proof.
  intros Hsame. unfold dropped. destruct (snd c) as [record timeStamp |];
    [| done].
  rewrite (stampRecord_sameConfig _ _ _ _ Hsame).
  destruct (stampRecord ext o record timeStamp); [| done | done].
  by rewrite (processRecord_sameConfig _ _ _ Hsame).
Qed.

(** A dropped call returns FLB_OK and changes nothing. *)
Lemma dropped_call env o c :
  dropped ext o (env, c) = true -> call ext env o c = Returned FLB_OK o.
Proof.
  unfold dropped. destruct c as [record timeStamp |]; simpl; [| done].
  unfold AddRecord.
  destruct (stampRecord ext o record timeStamp); [| done | done].
  by destruct (processRecord _ _ _) as [data [e |]].
Qed.

Lemma run_without_dropped o0 o calls o' :
  sameConfig ext o0 o ->
  (exists retCodes, run ext o calls = Returned retCodes o')
  <-> (exists retCodes,
         run ext o (filter (fun c => dropped ext o0 c = false) calls)
         = Returned retCodes o').
Proof.
  revert o. induction calls as [|[env c] calls IH]; intros o Hsame; [done |].
  destruct (dropped ext o0 (env, c)) eqn:Hdrop.
  - rewrite filter_cons_False by (by rewrite Hdrop).
    rewrite <- (IH _ Hsame). simpl.
    rewrite <- (dropped_sameConfig _ _ _ Hsame) in Hdrop.
    rewrite (dropped_call _ _ _ Hdrop).
    destruct (run ext o calls) as [rcs o2 | |]; split; intros [rcs' Hrun];
      try discriminate; injection Hrun as _ <-; eauto.
  - rewrite filter_cons_True by done. simpl.
    destruct (call ext env o c) as [rc o1 | |] eqn:Hcall;
      [| split; intros [? ?]; discriminate
       | split; intros [? ?]; discriminate].
    assert (Hsame1 : sameConfig ext o0 o1).
    { eapply sameConfig_trans; [exact Hsame |]. by eapply call_sameConfig. }
    specialize (IH _ Hsame1).
    destruct (run ext o1 calls) as [rcs o2 | |] eqn:Hrun;
      destruct (run ext o1 (filter _ calls)) as [rcs' o2' | |] eqn:Hrun';
      split; intros [rcs0 Hret]; try discriminate;
      injection Hret as _ <-.
    + destruct IH as [IH _]. destruct IH as [? [= _ <-]]; eauto.
    + destruct IH as [_ IH]. destruct IH as [? [= _ <-]]; eauto.
    + destruct IH as [IH _]. destruct IH as [? ?]; [eauto | discriminate].
    + destruct IH as [IH _]. destruct IH as [? ?]; [eauto | discriminate].
    + destruct IH as [_ IH]. destruct IH as [? ?]; [eauto | discriminate].
    + destruct IH as [_ IH]. destruct IH as [? ?]; [eauto | discriminate].
Qed.

(** X16.  A record that cannot be encoded is as good as never submitted:
    a sequence of calls ends in the plugin state [o'] exactly when the
    sequence without the calls of [AddRecord] whose record fails to encode
    does. *)
Theorem unencodable_records_leave_no_trace o calls o' :
  (exists retCodes, run ext o calls = Returned retCodes o')
  <-> (exists retCodes,
         run ext o (filter (fun c => dropped ext o c = false) calls)
         = Returned retCodes o').
Proof. apply run_without_dropped, sameConfig_refl. Qed.

(** ** The formatter *)

Lemma run_sameConfig o calls retCodes o' :
  run ext o calls = Returned retCodes o' -> sameConfig ext o o'.
Proof.
  revert o retCodes. induction calls as [|[env c] calls IH];
    intros o retCodes; simpl.
  - intros [= _ <-]. apply sameConfig_refl.
  - destruct (call ext env o c) as [rc o1 | |] eqn:Hcall;
      [| discriminate | discriminate].
    destruct (run ext o1 calls) as [rcs o2 | |] eqn:Hrun;
      [| discriminate | discriminate].
    intros [= _ <-].
    apply call_sameConfig in Hcall. apply IH in Hrun.
    by eapply sameConfig_trans.
Qed.

Lemma NewOutputPlugin_call_formatter strftime_New newClient newTimeout
    region deliveryStream dataKeys key timeFmt logKey replaceDots
    pluginID simpleAggregation o :
  NewOutputPlugin_call ext strftime_New newClient newTimeout region
    deliveryStream dataKeys key timeFmt logKey replaceDots pluginID
    simpleAggregation = inl o ->
  timeKey o = key
  /\ (key <> "" -> is_Some (fmtStrftime o))
  /\ (key = "" -> fmtStrftime o = None).
Proof.
  unfold NewOutputPlugin_call.
  destruct newClient as [c | e]; [| discriminate].
  destruct newTimeout as [t | e]; [| discriminate].
  case_decide as Hkey.
  - intros [= <-]. by repeat split.
  - destruct (strftime_New _) as [f | e]; [| discriminate].
    intros [= <-]. simpl. split; [done |]. split; [eauto | done].
Qed.

(** X17.  The formatter is there when it is needed: in the plugin left by
    any sequence of [AddRecord] and [Flush] calls that returns, started from
    a plugin returned by [NewOutputPlugin], the time key is the one given at
    construction, the formatter is not nil when that key is not empty, and
    it is nil when the key is empty; so line 186 does not call [Format]
    through a nil pointer. *)
Theorem constructed_plugin_keeps_formatter strftime_New newClient newTimeout
    region deliveryStream dataKeys key timeFmt logKey replaceDots
    pluginID simpleAggregation o calls retCodes o' :
  NewOutputPlugin_call ext strftime_New newClient newTimeout region
    deliveryStream dataKeys key timeFmt logKey replaceDots pluginID
    simpleAggregation = inl o ->
  run ext o calls = Returned retCodes o' ->
  timeKey o' = key
  /\ (key <> "" -> is_Some (fmtStrftime o'))
  /\ (key = "" -> fmtStrftime o' = None).
Proof.
  intros Hnew Hrun.
  apply NewOutputPlugin_call_formatter in Hnew as (Hkey & Hsome & Hnone).
  apply run_sameConfig in Hrun as (_ & _ & _ & Htime & Hfmt & _).
  by rewrite Htime, Hfmt.
Qed.

(** X18.  The time format at construction: without a time key the format is
    not parsed, so the construction does not depend on it; with a time key,
    an empty format stands for "%Y-%m-%dT%H:%M:%S". *)
Theorem time_format_handling strftime_New newClient newTimeout
    region deliveryStream dataKeys timeKey timeFmt logKey replaceDots
    pluginID simpleAggregation :
  (timeKey = "" ->
   forall strftime_New' timeFmt',
     NewOutputPlugin_call ext strftime_New newClient newTimeout region
       deliveryStream dataKeys timeKey timeFmt logKey replaceDots pluginID
       simpleAggregation
     = NewOutputPlugin_call ext strftime_New' newClient newTimeout region
         deliveryStream dataKeys timeKey timeFmt' logKey replaceDots pluginID
         simpleAggregation)
  /\ (timeFmt = "" ->
      NewOutputPlugin_call ext strftime_New newClient newTimeout region
        deliveryStream dataKeys timeKey timeFmt logKey replaceDots pluginID
        simpleAggregation
      = NewOutputPlugin_call ext strftime_New newClient newTimeout region
          deliveryStream dataKeys timeKey "%Y-%m-%dT%H:%M:%S" logKey
          replaceDots pluginID simpleAggregation).
Proof.
  unfold NewOutputPlugin_call.
  destruct newClient as [c | e]; [| done].
  destruct newTimeout as [t | e]; [| done]. split.
  - intros Hkey strftime_New' timeFmt'. by rewrite !(decide_True _ _ Hkey).
  - intros Hfmt. by rewrite (decide_True _ _ Hfmt).
Qed.

End Coverage.

(** * The host entry points and the sessions *)

Section HostProperties.

Variable FirehoseOutput : Type.
Variable Record_ : Type.
Variable out_AddRecord :
  FirehoseOutput -> Record_ -> FirehoseOutput * option error.
Variable out_Flush : FirehoseOutput -> FirehoseOutput * option error.

Lemma FLBPluginFlush_from_result dec out count :
  FLBPluginFlush_from out_AddRecord out_Flush dec out count
  = flushResult out_AddRecord out_Flush dec out count.
Proof.
  unfold flushResult. revert out count.
  induction dec as [|[code record] dec IH]; intros out count.
  - simpl. destruct (out_Flush out) as [out' [e |]]; [done |].
    by rewrite Z.add_0_r.
  - destruct code as [| p | p]; simpl.
    + destruct (out_AddRecord out record) as [out' [e |]]; [done |].
      rewrite IH.
      destruct (addAll out_AddRecord out' (decoded dec)) as [out1 [e |]];
        [done |].
      destruct (out_Flush out1) as [out2 [e |]]; [done |].
      do 2 f_equal. unfold len. simpl length. lia.
    + destruct (out_Flush out) as [out' [e |]]; [done |].
      by rewrite Z.add_0_r.
    + destruct (out_Flush out) as [out' [e |]]; [done |].
      by rewrite Z.add_0_r.
Qed.

(** X19.  A chunk is all or nothing up to the failure: [FLBPluginFlush]
    adds the records decoded, in order, up to the first one [AddRecord]
    refuses; on a refusal it returns FLB_ERROR with the plugin as that call
    left it, without flushing; otherwise it flushes once and returns
    FLB_ERROR if the flush fails, FLB_OK with the number of records
    otherwise. *)
Theorem FLBPluginFlush_adds_then_flushes dec out :
  FLBPluginFlush out_AddRecord out_Flush dec out
  = match addAll out_AddRecord out (decoded dec) with
    | (out, Some _) => (FLB_ERROR, out, None)
    | (out, None) =>
        match out_Flush out with
        | (out, Some _) => (FLB_ERROR, out, None)
        | (out, None) => (FLB_OK, out, Some (len (decoded dec)))
        end
    end.
Proof.
  unfold FLBPluginFlush. rewrite FLBPluginFlush_from_result.
  unfold flushResult.
  destruct (addAll out_AddRecord out (decoded dec)) as [out1 [e |]];
    [done |].
  by destruct (out_Flush out1) as [out2 [e |]].
Qed.

Lemma decoded_stops pre code (record : Record_) rest :
  Forall (fun p => fst p = 0) pre ->
  code <> 0 ->
  decoded (pre ++ (code, record) :: rest) = decoded pre.
Proof.
  intros Hpre Hcode. induction Hpre as [|[c r] pre Hc _ IH]; simpl.
  - by destruct code.
  - simpl in Hc. subst c. by rewrite IH.
Qed.

(** X20.  A nonzero code of the decoder ends the chunk silently: what
    follows the first nonzero code is not looked at, and the code itself,
    an error of the decoder or the end of the data, does not change the
    status. *)
Theorem FLBPluginFlush_stops_at_nonzero pre code record rest out :
  Forall (fun p => fst p = 0) pre ->
  code <> 0 ->
  FLBPluginFlush out_AddRecord out_Flush (pre ++ (code, record) :: rest) out
  = FLBPluginFlush out_AddRecord out_Flush pre out.
Proof.
  intros Hpre Hcode. unfold FLBPluginFlush.
  rewrite !FLBPluginFlush_from_result. unfold flushResult.
  by rewrite (decoded_stops _ _ _ _ Hpre Hcode).
Qed.

(** X21.  The required keys: [FLBPluginInit] returns FLB_OK exactly when
    the delivery stream and the region are both set and the construction
    reports no error; when one of the two keys is empty the construction is
    not attempted and the global is left as it was. *)
Theorem FLBPluginInit_ok_iff configKey
    (newOutput : string -> string -> string -> string
                 -> option FirehoseOutput * option error) out :
  (fst (FLBPluginInit configKey newOutput out) = FLB_OK
   <-> configKey "delivery-stream" <> "" /\ configKey "region" <> ""
       /\ snd (newOutput (configKey "region") (configKey "delivery-stream")
                 (configKey "data_keys") (configKey "role_arn")) = None)
  /\ (configKey "delivery-stream" = "" \/ configKey "region" = "" ->
      FLBPluginInit configKey newOutput out = (FLB_ERROR, out)).
Proof.
  unfold FLBPluginInit. split.
  - repeat case_bool_decide; simpl;
      try (split; [discriminate | by intros (? & ? & ?)]).
    destruct (newOutput _ _ _ _) as [out' [e |]]; simpl;
      (split; [try discriminate; done | by intros (? & ? & ?)]).
  - intros [-> | ->]; [done |]. by rewrite orb_true_r.
Qed.

End HostProperties.

Section SessionProperties.

Variables Session Credentials_ ResolvedEndpoint Options : Type.
Variable resolvedURL : string -> ResolvedEndpoint.
Variable defaultEndpointFor :
  string -> string -> Options -> ResolvedEndpoint + error.
Variable session_NewSession :
  aws_Config Credentials_ ResolvedEndpoint Options -> Session + error.
Variable stscreds_NewCredentials : Session -> string -> Credentials_.

(** X22.  Endpoint overrides and roles: when [newPutRecordBatcher] gets
    to line 175, the session handed to [firehose.New] is the one made from
    the configuration handed with it, and that configuration carries the
    resolver with the custom endpoints exactly when neither the EKS role nor
    the role ARN is set.  Without a role it is the base configuration
    (region, custom resolver, verbose credential errors, no credentials)
    and the session is the base session.  With a role it holds the region
    and the credentials of the last role and nothing else: those of the
    role ARN made from the base session, those of the EKS role made from
    the base session, or, with both, those of the role ARN made from the
    session of the EKS role. *)
Theorem custom_endpoints_only_without_role
    roleARN region firehoseEndpoint stsEndpoint eksRole svcSess svcConfig :
  serviceSession Session Credentials_ ResolvedEndpoint Options resolvedURL
    defaultEndpointFor session_NewSession stscreds_NewCredentials
    roleARN region firehoseEndpoint stsEndpoint eksRole
  = inl (svcSess, svcConfig) ->
  let baseConfig : aws_Config Credentials_ ResolvedEndpoint Options :=
    {| Config_Region := Some region;
       Config_EndpointResolver :=
         Some (customResolverFn ResolvedEndpoint Options resolvedURL
                 defaultEndpointFor firehoseEndpoint stsEndpoint);
       Config_CredentialsChainVerboseErrors := Some true;
       Config_Credentials := None |} in
  let roleOnly creds : aws_Config Credentials_ ResolvedEndpoint Options :=
    {| Config_Region := Some region;
       Config_EndpointResolver := None;
       Config_CredentialsChainVerboseErrors := None;
       Config_Credentials := Some creds |} in
  exists sess,
    session_NewSession baseConfig = inl sess
    /\ session_NewSession svcConfig = inl svcSess
    /\ (is_Some (Config_EndpointResolver svcConfig)
        <-> eksRole = "" /\ roleARN = "")
    /\ (eksRole = "" -> roleARN = "" ->
        svcConfig = baseConfig /\ svcSess = sess)
    /\ (eksRole = "" -> roleARN <> "" ->
        svcConfig = roleOnly (stscreds_NewCredentials sess roleARN))
    /\ (eksRole <> "" -> roleARN = "" ->
        svcConfig = roleOnly (stscreds_NewCredentials sess eksRole))
    /\ (eksRole <> "" -> roleARN <> "" ->
        exists eksSess,
          session_NewSession
            (roleOnly (stscreds_NewCredentials sess eksRole)) = inl eksSess
          /\ svcConfig
             = roleOnly (stscreds_NewCredentials eksSess roleARN)).
Proof.
  intros Hsession baseConfig roleOnly.
  unfold serviceSession, roleConfig in Hsession.
  fold baseConfig in Hsession.
  destruct (session_NewSession baseConfig) as [sess | e] eqn:Hbase;
    [| discriminate].
  exists sess. split; [reflexivity |].
  destruct (decide (eksRole = "")) as [Heks | Heks].
  - destruct (decide (roleARN = "")) as [Hrole | Hrole].
    + injection Hsession as <- <-.
      split; [exact Hbase |]. split; [by split; [| eexists] |].
      by repeat split.
    + fold (roleOnly (stscreds_NewCredentials sess roleARN)) in Hsession.
      destruct (session_NewSession
                  (roleOnly (stscreds_NewCredentials sess roleARN)))
        as [s | e] eqn:Hsts; [| discriminate].
      injection Hsession as <- <-.
      split; [exact Hsts |].
      split; [split; [by intros [? ?] | by intros [_ ?]] |].
      by repeat split.
  - fold (roleOnly (stscreds_NewCredentials sess eksRole)) in Hsession.
    destruct (session_NewSession
                (roleOnly (stscreds_NewCredentials sess eksRole)))
      as [s1 | e] eqn:Heksq; [| discriminate].
    destruct (decide (roleARN = "")) as [Hrole | Hrole].
    + injection Hsession as <- <-.
      split; [exact Heksq |].
      split; [split; [by intros [? ?] | by intros [? _]] |].
      by repeat split.
    + fold (roleOnly (stscreds_NewCredentials s1 roleARN)) in Hsession.
      destruct (session_NewSession
                  (roleOnly (stscreds_NewCredentials s1 roleARN)))
        as [s2 | e] eqn:Hsts; [| discriminate].
      injection Hsession as <- <-.
      split; [exact Hsts |].
      split; [split; [by intros [? ?] | by intros [? _]] |].
      repeat split; try done. intros _ _. by exists s1.
Qed.

End SessionProperties.

(** * The further properties at concrete inputs *)

Lemma filter_accepted n : filter carriesError (replicate n accepted) = [].
Proof.
  induction n as [|n IH]; [done |]. simpl.
  rewrite filter_cons_False; [done |]. by intros [? ?].
Qed.

Lemma pickyExt_wellFormed : wellFormedReplies pickyExt.
Proof.
  intros c input response c' [= <- _]. unfold pickyReply.
  destruct (Records input) as [|r [|r' rest]]; simpl.
  - done.
  - rewrite filter_cons_False; [done |]. by intros [? ?].
  - rewrite length_replicate. split; [done |].
    rewrite filter_cons_True by (by eexists).
    rewrite filter_cons_False by (by intros [? ?]).
    by rewrite filter_accepted.
Qed.

Lemma steadyExt_neverPartial : neverPartial steadyExt.
Proof. intros c input response c' [= <- _]. by left. Qed.

Lemma mockOne_reachable : reachable mockExt mockOne.
Proof.
  apply (reachable_step mockExt (mockPlugin "" false [])).
  - unfold mockPlugin. apply reachable_new.
  - by apply (step_AddRecord mockExt mockEnv _ (Some (bytes_of "{}")) 0
                FLB_OK).
Qed.

Lemma pickyOne_reachable : reachable pickyExt pickyOne.
Proof.
  apply (reachable_step pickyExt pickyPlugin).
  - unfold pickyPlugin. apply reachable_new.
  - by apply (step_AddRecord pickyExt mockEnv _ (Some (bytes_of "{}")) 0
                FLB_OK).
Qed.

Lemma steadyOne_reachable : reachable steadyExt steadyOne.
Proof.
  apply (reachable_step steadyExt steadyPlugin).
  - unfold steadyPlugin. apply reachable_new.
  - by apply (step_AddRecord steadyExt mockEnv _ (Some (bytes_of "{}")) 0
                FLB_OK).
Qed.

Lemma failed_call_witness :
  call mockExt mockEnv fullPlugin
    (Call_AddRecord mockExt (Some (bytes_of "{}")) 0)
  = Returned FLB_RETRY fullPluginFailed
  /\ FLB_RETRY <> FLB_OK
  /\ records fullPluginFailed = records fullPlugin
  /\ dataLength fullPluginFailed = dataLength fullPlugin.
Proof.
  assert (H1 : call mockExt mockEnv fullPlugin
                 (Call_AddRecord mockExt (Some (bytes_of "{}")) 0)
               = Returned FLB_RETRY fullPluginFailed)
    by (vm_compute; reflexivity).
  assert (H2 : FLB_RETRY <> FLB_OK) by discriminate.
  split; [exact H1 |]. split; [exact H2 |].
  exact (failed_call_keeps_batch mockExt mockEnv fullPlugin _ _ _ H1 H2).
Defined.

Lemma call_statuses_witness :
  call mockExt mockEnv (mockPlugin "time" false [])
    (Call_AddRecord mockExt (Some (bytes_of "{}")) 0)
  = Returned FLB_ERROR (mockPlugin "time" false [])
  /\ (FLB_ERROR = FLB_OK \/ FLB_ERROR = FLB_RETRY
      \/ (FLB_ERROR = FLB_ERROR
          /\ timeKey (mockPlugin "time" false []) <> ""
          /\ Call_AddRecord mockExt (Some (bytes_of "{}")) 0
             <> Call_Flush mockExt)).
Proof.
  assert (H1 : call mockExt mockEnv (mockPlugin "time" false [])
                 (Call_AddRecord mockExt (Some (bytes_of "{}")) 0)
               = Returned FLB_ERROR (mockPlugin "time" false []))
    by reflexivity.
  split; [exact H1 |].
  exact (call_statuses mockExt mockEnv _ _ _ _ H1).
Defined.

Lemma flush_only_removes_witness :
  Flush mockExt mockEnv fiveHeldPartial
  = Returned FLB_OK
      (set_batch mockExt
         (set_client mockExt fiveHeldPartial
            {| script := [];
               received := [ {| DeliveryStreamName := Some "stream";
                                Records := fiveRecords |} ] |})
         [rec "bb"; rec "dddd"] 6)
  /\ [rec "bb"; rec "dddd"] `sublist_of` fiveRecords.
Proof.
  assert (H1 : Flush mockExt mockEnv fiveHeldPartial
    = Returned FLB_OK
        (set_batch mockExt
           (set_client mockExt fiveHeldPartial
              {| script := [];
                 received := [ {| DeliveryStreamName := Some "stream";
                                  Records := fiveRecords |} ] |})
           [rec "bb"; rec "dddd"] 6)) by (vm_compute; reflexivity).
  split; [exact H1 |].
  exact (flush_only_removes mockExt mockEnv fiveHeldPartial _ _ H1).
Defined.

Lemma error_iff_witness :
  records fiveHeld <> []
  /\ processAPIResponse mockExt mockEnv fiveHeld twoOfFiveOverloaded
     = Returned (FLB_RETRY, None) fiveHeld
  /\ (is_Some (@None error)
      <-> Int64Value (FailedPutCount twoOfFiveOverloaded)
          = len (records fiveHeld))
  /\ (is_Some (@None error) -> FLB_RETRY = FLB_RETRY).
Proof.
  assert (H1 : records fiveHeld <> []) by discriminate.
  assert (H2 : processAPIResponse mockExt mockEnv fiveHeld twoOfFiveOverloaded
               = Returned (FLB_RETRY, None) fiveHeld)
    by (vm_compute; reflexivity).
  split; [exact H1 |]. split; [exact H2 |].
  exact (error_iff_no_progress mockExt mockEnv fiveHeld _ _ _ _ H1 H2).
Defined.


Lemma run_keeps_configuration_witness :
  run mockExt fiveHeldPartial [(mockEnv, Call_Flush mockExt)]
  = Returned [FLB_OK]
      (set_batch mockExt
         (set_client mockExt fiveHeldPartial
            {| script := [];
               received := [ {| DeliveryStreamName := Some "stream";
                                Records := fiveRecords |} ] |})
         [rec "bb"; rec "dddd"] 6)
  /\ sameConfig mockExt fiveHeldPartial
       (set_batch mockExt
          (set_client mockExt fiveHeldPartial
             {| script := [];
                received := [ {| DeliveryStreamName := Some "stream";
                                 Records := fiveRecords |} ] |})
          [rec "bb"; rec "dddd"] 6).
Proof.
  assert (H1 : run mockExt fiveHeldPartial [(mockEnv, Call_Flush mockExt)]
    = Returned [FLB_OK]
        (set_batch mockExt
           (set_client mockExt fiveHeldPartial
              {| script := [];
                 received := [ {| DeliveryStreamName := Some "stream";
                                  Records := fiveRecords |} ] |})
           [rec "bb"; rec "dddd"] 6)) by (vm_compute; reflexivity).
  split; [exact H1 |].
  exact (run_keeps_configuration mockExt _ _ _ _ H1).
Defined.

Lemma failing_since_witness :
  sendCurrentBatch mockExt mockEnv failingPlugin
  = Returned (FLB_RETRY, Some (errorString "no reply scripted"))
      (set_client mockExt failingPlugin
         {| script := [];
            received := [ {| DeliveryStreamName := Some "stream";
                             Records := [rec "{}"] |} ] |})
  /\ plugins.failingSince (timer failingPlugin) = Some 5
  /\ plugins.threshold
       (timer
          (set_client mockExt failingPlugin
             {| script := [];
                received := [ {| DeliveryStreamName := Some "stream";
                                 Records := [rec "{}"] |} ] |}))
     = plugins.threshold (timer failingPlugin)
  /\ (plugins.failingSince
        (timer
           (set_client mockExt failingPlugin
              {| script := [];
                 received := [ {| DeliveryStreamName := Some "stream";
                                  Records := [rec "{}"] |} ] |}))
      = Some 5
      \/ (plugins.failingSince
            (timer
               (set_client mockExt failingPlugin
                  {| script := [];
                     received := [ {| DeliveryStreamName := Some "stream";
                                      Records := [rec "{}"] |} ] |}))
          = None
          /\ FLB_RETRY = FLB_OK
          /\ Some (errorString "no reply scripted") = None
          /\ records
               (set_client mockExt failingPlugin
                  {| script := [];
                     received := [ {| DeliveryStreamName := Some "stream";
                                      Records := [rec "{}"] |} ] |})
             = [])).
Proof.
  assert (H1 : sendCurrentBatch mockExt mockEnv failingPlugin
    = Returned (FLB_RETRY, Some (errorString "no reply scripted"))
        (set_client mockExt failingPlugin
           {| script := [];
              received := [ {| DeliveryStreamName := Some "stream";
                               Records := [rec "{}"] |} ] |}))
    by (vm_compute; reflexivity).
  assert (H2 : plugins.failingSince (timer failingPlugin) = Some 5)
    by reflexivity.
  split; [exact H1 |]. split; [exact H2 |].
  exact (failing_since_kept_or_cleared mockExt mockEnv failingPlugin
           _ _ _ _ H1 H2).
Defined.

Lemma processed_record_witness :
  processRecord mockExt (mockPlugin "" false []) (Some (payload 2000000))
  = (take (Z.to_nat 1023986) (payload 2000000 ++ [Byte.x0a])
       ++ bytes_of "[Truncated...]", None)
  /\ 1 <= len (take (Z.to_nat 1023986) (payload 2000000 ++ [Byte.x0a])
               ++ bytes_of "[Truncated...]") <= 1024000.
Proof.
  assert (H1 : processRecord mockExt (mockPlugin "" false [])
                 (Some (payload 2000000))
    = (take (Z.to_nat 1023986) (payload 2000000 ++ [Byte.x0a])
         ++ bytes_of "[Truncated...]", None)).
  { unfold processRecord, terminate.
    change (encodeRecord mockExt (mockPlugin "" false [])
              (Some (payload 2000000))) with (payload 2000000, @None error).
    cbv beta iota.
    rewrite bool_decide_eq_true_2; [reflexivity |].
    rewrite len_app, len_payload by lia. reflexivity. }
  split; [exact H1 |].
  exact (processed_record_fits mockExt _ _ _ H1).
Defined.

Lemma held_records_witness :
  reachable mockExt mockOne
  /\ Forall (fun r => 1 <= len (Data r) <= 1024000) (records mockOne).
Proof.
  split; [exact mockOne_reachable |].
  exact (held_records_fit mockExt mockOne mockOne_reachable).
Defined.

Lemma ok_flush_witness :
  wellFormedReplies pickyExt
  /\ records pickyTwo <> []
  /\ Flush pickyExt mockEnv pickyTwo
     = Returned FLB_OK (set_batch pickyExt pickyTwo [rec "a"] 1)
  /\ (length (records (set_batch pickyExt pickyTwo [rec "a"] 1))
      < length (records pickyTwo))%nat.
Proof.
  assert (H2 : records pickyTwo <> []) by discriminate.
  assert (H3 : Flush pickyExt mockEnv pickyTwo
               = Returned FLB_OK (set_batch pickyExt pickyTwo [rec "a"] 1))
    by (vm_compute; reflexivity).
  split; [exact pickyExt_wellFormed |]. split; [exact H2 |].
  split; [exact H3 |].
  exact (ok_flush_makes_progress pickyExt mockEnv pickyTwo _
           pickyExt_wellFormed H2 H3).
Defined.

Lemma batch_count_witness :
  wellFormedReplies pickyExt /\ reachable pickyExt pickyOne
  /\ len (records pickyOne) <= 500.
Proof.
  split; [exact pickyExt_wellFormed |].
  split; [exact pickyOne_reachable |].
  exact (batch_count_bounded pickyExt pickyOne pickyExt_wellFormed
           pickyOne_reachable).
Defined.

Lemma dataLength_bounded_witness :
  wellFormedReplies pickyExt /\ reachable pickyExt pickyOne
  /\ 0 <= dataLength pickyOne <= 512000000.
Proof.
  split; [exact pickyExt_wellFormed |].
  split; [exact pickyOne_reachable |].
  exact (dataLength_bounded pickyExt pickyOne pickyExt_wellFormed
           pickyOne_reachable).
Defined.

Lemma limits_witness :
  neverPartial steadyExt /\ reachable steadyExt steadyOne
  /\ len (records steadyOne) <= 500
  /\ totalSize (records steadyOne) <= 4194304.
Proof.
  split; [exact steadyExt_neverPartial |].
  split; [exact steadyOne_reachable |].
  exact (limits_hold_without_partial_failure steadyExt steadyOne
           steadyExt_neverPartial steadyOne_reachable).
Defined.

Lemma encode_error_witness :
  plugins_DecodeMap brokenLogExt (Some (bytes_of "{}"))
  = (Some (bytes_of "{}"), None)
  /\ logKey brokenLogPlugin <> ""
  /\ plugins_LogKey brokenLogExt (Some (bytes_of "{}")) "log"
     = (bytes_of "{}", None)
  /\ snd (plugins_EncodeLogKey brokenLogExt (bytes_of "{}"))
     = Some (errorString "cannot encode")
  /\ processRecord brokenLogExt brokenLogPlugin (Some (bytes_of "{}"))
     = ([Byte.x0a], None).
Proof.
  assert (H1 : plugins_DecodeMap brokenLogExt (Some (bytes_of "{}"))
               = (Some (bytes_of "{}"), None)) by reflexivity.
  assert (H2 : logKey brokenLogPlugin <> "") by discriminate.
  assert (H3 : plugins_LogKey brokenLogExt (Some (bytes_of "{}")) "log"
               = (bytes_of "{}", None)) by reflexivity.
  split; [exact H1 |]. split; [exact H2 |]. split; [exact H3 |].
  split; [reflexivity |].
  exact (proj2 (encode_error_reporting brokenLogExt brokenLogPlugin
                  (Some (bytes_of "{}")) (Some (bytes_of "{}")) H1)
           H2 (bytes_of "{}") H3).
Defined.

Lemma keeps_formatter_witness :
  NewOutputPlugin_call pickyExt (fun _ => inl true) (inl tt)
    (inl idleTimer) "us-west-2" "stream" "" "time" "" "" "" 0 false
  = inl (NewOutputPlugin pickyExt "us-west-2" "stream" "" "time" "" "" 0
           false tt idleTimer (Some true))
  /\ run pickyExt
       (NewOutputPlugin pickyExt "us-west-2" "stream" "" "time" "" "" 0
          false tt idleTimer (Some true))
       [(mockEnv, Call_AddRecord pickyExt (Some (bytes_of "{}")) 0);
        (mockEnv, Call_Flush pickyExt)]
     = Returned [FLB_OK; FLB_OK]
         (set_batch pickyExt
            (set_timer pickyExt
               (NewOutputPlugin pickyExt "us-west-2" "stream" "" "time" ""
                  "" 0 false tt idleTimer (Some true))
               (plugins.Reset idleTimer))
            [] 0)
  /\ timeKey
       (set_batch pickyExt
          (set_timer pickyExt
             (NewOutputPlugin pickyExt "us-west-2" "stream" "" "time" ""
                "" 0 false tt idleTimer (Some true))
             (plugins.Reset idleTimer))
          [] 0)
     = "time"
  /\ ("time" <> ""
      -> is_Some
           (fmtStrftime
              (set_batch pickyExt
                 (set_timer pickyExt
                    (NewOutputPlugin pickyExt "us-west-2" "stream" "" "time"
                       "" "" 0 false tt idleTimer (Some true))
                    (plugins.Reset idleTimer))
                 [] 0)))
  /\ ("time" = ""
      -> fmtStrftime
           (set_batch pickyExt
              (set_timer pickyExt
                 (NewOutputPlugin pickyExt "us-west-2" "stream" "" "time"
                    "" "" 0 false tt idleTimer (Some true))
                 (plugins.Reset idleTimer))
              [] 0)
         = None).
Proof.
  assert (H1 : NewOutputPlugin_call pickyExt (fun _ => inl true) (inl tt)
                 (inl idleTimer) "us-west-2" "stream" "" "time" "" "" "" 0
                 false
    = inl (NewOutputPlugin pickyExt "us-west-2" "stream" "" "time" "" "" 0
             false tt idleTimer (Some true))) by reflexivity.
  assert (H2 : run pickyExt
       (NewOutputPlugin pickyExt "us-west-2" "stream" "" "time" "" "" 0
          false tt idleTimer (Some true))
       [(mockEnv, Call_AddRecord pickyExt (Some (bytes_of "{}")) 0);
        (mockEnv, Call_Flush pickyExt)]
     = Returned [FLB_OK; FLB_OK]
         (set_batch pickyExt
            (set_timer pickyExt
               (NewOutputPlugin pickyExt "us-west-2" "stream" "" "time" ""
                  "" 0 false tt idleTimer (Some true))
               (plugins.Reset idleTimer))
            [] 0)) by (vm_compute; reflexivity).
  split; [exact H1 |]. split; [exact H2 |].
  exact (constructed_plugin_keeps_formatter pickyExt _ _ _ _ _ _ _ _ _ _ _ _
           _ _ _ _ H1 H2).
Defined.

Lemma time_format_witness :
  NewOutputPlugin_call mockExt
    (fun fmt => if decide (fmt = "%Q") then inr (errorString "bad format")
                else inl true)
    (inl (mockClient [])) (inl idleTimer)
    "us-west-2" "stream" "" "" "%Q" "" "" 0 false
  = inl (mockPlugin "" false [])
  /\ NewOutputPlugin_call mockExt (fun _ => inl true)
       (inl (mockClient [])) (inl idleTimer)
       "us-west-2" "stream" "" "time" "" "" "" 0 false
     = NewOutputPlugin_call mockExt (fun _ => inl true)
         (inl (mockClient [])) (inl idleTimer)
         "us-west-2" "stream" "" "time" "%Y-%m-%dT%H:%M:%S" "" "" 0 false.
Proof.
  split.
  - rewrite (proj1 (time_format_handling mockExt _ _ _ _ _ _ _ _ _ _ _ _)
               eq_refl (fun _ => inl true) "").
    reflexivity.
  - exact (proj2 (time_format_handling mockExt _ _ _ _ _ _ _ _ _ _ _ _)
             eq_refl).
Defined.

Lemma stops_at_nonzero_witness :
  Forall (fun p : Z * string => fst p = 0) [(0, "a"); (0, "b")]
  /\ (-1) <> 0
  /\ FLBPluginFlush listAddRecord listFlush
       ([(0, "a"); (0, "b")] ++ (-1, "") :: [(0, "c")]) []
     = FLBPluginFlush listAddRecord listFlush [(0, "a"); (0, "b")] [].
Proof.
  assert (H1 : Forall (fun p : Z * string => fst p = 0) [(0, "a"); (0, "b")])
    by (by repeat constructor).
  assert (H2 : (-1) <> 0) by discriminate.
  split; [exact H1 |]. split; [exact H2 |].
  exact (FLBPluginFlush_stops_at_nonzero _ _ listAddRecord listFlush
           _ _ _ _ _ H1 H2).
Defined.

Lemma custom_endpoints_witness :
  mockServiceSession "arn:aws:iam::1:role/r" "us-west-2"
    "https://firehose.test" "" ""
  = inl ({| Config_Region := Some "us-west-2";
            Config_EndpointResolver := None;
            Config_CredentialsChainVerboseErrors := None;
            Config_Credentials := Some "arn:aws:iam::1:role/r" |},
         {| Config_Region := Some "us-west-2";
            Config_EndpointResolver := None;
            Config_CredentialsChainVerboseErrors := None;
            Config_Credentials := Some "arn:aws:iam::1:role/r" |})
  /\ "arn:aws:iam::1:role/r" <> ""
  /\ (is_Some
        (Config_EndpointResolver
           ({| Config_Region := Some "us-west-2";
               Config_EndpointResolver := None;
               Config_CredentialsChainVerboseErrors := None;
               Config_Credentials := Some "arn:aws:iam::1:role/r" |}
            : cfgSession))
      <-> "" = "" /\ "arn:aws:iam::1:role/r" = "").
Proof.
  assert (H1 : mockServiceSession "arn:aws:iam::1:role/r" "us-west-2"
                 "https://firehose.test" "" ""
    = inl ({| Config_Region := Some "us-west-2";
              Config_EndpointResolver := None;
              Config_CredentialsChainVerboseErrors := None;
              Config_Credentials := Some "arn:aws:iam::1:role/r" |},
           {| Config_Region := Some "us-west-2";
              Config_EndpointResolver := None;
              Config_CredentialsChainVerboseErrors := None;
              Config_Credentials := Some "arn:aws:iam::1:role/r" |}))
    by reflexivity.
  assert (H2 : "arn:aws:iam::1:role/r" <> "") by discriminate.
  split; [exact H1 |]. split; [exact H2 |].
  destruct (custom_endpoints_only_without_role _ _ _ _ _ _ _ _ _ _ _ _ _ _ _
              H1) as (sess & _ & _ & Hiff & _).
  exact Hiff.
Defined.

(** * Aggregation and the bytes held *)

Section Stream.

Variable ext : Externals.

Lemma heldBytes_app rs rs' :
  heldBytes (rs ++ rs') = heldBytes rs ++ heldBytes rs'.
Proof. unfold heldBytes. by rewrite fmap_app, concat_app. Qed.

Lemma appendData_heldBytes (o : OutputPlugin ext) data :
  heldBytes (records (appendData ext o data))
  = heldBytes (records o) ++ data.
Proof.
  assert (Hfresh : heldBytes (records o ++ [ {| Data := data |} ])
                   = heldBytes (records o) ++ data).
  { rewrite heldBytes_app. unfold heldBytes at 2. simpl.
    by rewrite app_nil_r. }
  unfold appendData. simpl. revert Hfresh.
  generalize (records o). intros held Hfresh.
  destruct (simpleAggregation o && bool_decide (0 < len held)); [| done].
  induction held as [|r rs _] using rev_ind; [done |].
  rewrite lookup_last_app.
  case_bool_decide; [| done].
  rewrite insert_last_app, !heldBytes_app. unfold heldBytes. simpl.
  by rewrite !app_nil_r, app_assoc.
Qed.

(** X23.  Aggregation keeps the bytes: when [AddRecord] encodes its record
    to [data] and appends it without a send, the bytes held, read record
    after record, are those held before followed by [data], whether
    aggregation put them in the last record or in a new one. *)
Theorem aggregation_keeps_bytes env (o : OutputPlugin ext) record timeStamp
    stamped data retCode o' :
  stampRecord ext o record timeStamp = Stamp_ok ext stamped ->
  processRecord ext o stamped = (data, None) ->
  batchFull ext o (len data) = false ->
  AddRecord ext env o record timeStamp = Returned retCode o' ->
  retCode = FLB_OK
  /\ heldBytes (records o') = heldBytes (records o) ++ data.
Proof.
  intros Hstamp Hdata Hroom.
  rewrite (AddRecord_room ext env o record timeStamp stamped data
             Hstamp Hdata Hroom).
  intros [= <- <-]. split; [done |]. apply appendData_heldBytes.
Qed.

End Stream.

Lemma aggregation_keeps_bytes_witness :
  stampRecord mockExt oneHeld (Some (payload 199)) 0
  = Stamp_ok mockExt (Some (payload 199))
  /\ processRecord mockExt oneHeld (Some (payload 199))
     = (payload 199 ++ [Byte.x0a], None)
  /\ batchFull mockExt oneHeld (len (payload 199 ++ [Byte.x0a])) = false
  /\ AddRecord mockExt mockEnv oneHeld (Some (payload 199)) 0
     = Returned FLB_OK (appendData mockExt oneHeld (payload 199 ++ [Byte.x0a]))
  /\ FLB_OK = FLB_OK
  /\ heldBytes
       (records (appendData mockExt oneHeld (payload 199 ++ [Byte.x0a])))
     = heldBytes (records oneHeld) ++ (payload 199 ++ [Byte.x0a])
  /\ heldBytes
       (records (appendData mockExt oneHeld (payload 199 ++ [Byte.x0a])))
     = heldBytes
         (records
            (appendData mockExt oneHeldPlain (payload 199 ++ [Byte.x0a])))
  /\ length (records (appendData mockExt oneHeld (payload 199 ++ [Byte.x0a])))
     = 1%nat
  /\ length
       (records (appendData mockExt oneHeldPlain (payload 199 ++ [Byte.x0a])))
     = 2%nat.
Proof.
  assert (H1 : stampRecord mockExt oneHeld (Some (payload 199)) 0
               = Stamp_ok mockExt (Some (payload 199))) by reflexivity.
  assert (H2 : processRecord mockExt oneHeld (Some (payload 199))
               = (payload 199 ++ [Byte.x0a], None)) by reflexivity.
  assert (H3 : batchFull mockExt oneHeld (len (payload 199 ++ [Byte.x0a]))
               = false) by reflexivity.
  assert (H4 : AddRecord mockExt mockEnv oneHeld (Some (payload 199)) 0
               = Returned FLB_OK
                   (appendData mockExt oneHeld (payload 199 ++ [Byte.x0a])))
    by reflexivity.
  split; [exact H1 |]. split; [exact H2 |]. split; [exact H3 |].
  split; [exact H4 |].
  destruct (aggregation_keeps_bytes mockExt mockEnv oneHeld _ _ _ _ _ _
              H1 H2 H3 H4) as [Hok Hbytes].
  split; [exact Hok |]. split; [exact Hbytes |].
  split; [| split]; reflexivity.
Defined.

Lemma FLBPluginInit_witness :
  (fun key : string => if decide (key = "region") then "us-west-2" else "")
    "delivery-stream" = ""
  /\ FLBPluginInit
       (fun key : string =>
          if decide (key = "region") then "us-west-2" else "")
       (fun _ _ _ _ => (Some ["made"], None)) (@None (list string))
     = (FLB_ERROR, None).
Proof.
  assert (H1 : (fun key : string =>
                  if decide (key = "region") then "us-west-2" else "")
                 "delivery-stream" = "") by reflexivity.
  split; [exact H1 |].
  exact (proj2 (FLBPluginInit_ok_iff (list string) _ _ None) (or_introl H1)).
Defined.
